(** * The Neutron [graphs] native module (src/native.cpp)

    A shallow embedding of the chart module: the two value parsers, the
    SVGGraph document builder with its scaler, the pie renderer, the
    file sink, and the four exported entry points.

    Numbers.  A C++ [double] is represented by an exact rational: the
    arithmetic of the module is embedded without rounding, overflow,
    infinities or NaN.  A statement that depends on the value of a
    quotient carries the hypothesis that makes the divisor non-zero.
    [int] and [size_t] values are integers; the conversions the module
    performs between them and [double] are written out.

    Library calls.  [std::stod], [std::to_string(double)], [cos] and
    [sin] belong to the C and C++ libraries, not to the module; the
    embedding takes them through the interface [StdLib], and every
    general theorem holds for all of its implementations.  One
    executable implementation, [Reference.lib], is given for evaluating
    the module on concrete inputs. *)

From Stdlib Require Import ZArith QArith Qround Qabs Lqa Lia.
From Stdlib Require Import String Ascii List DecimalString.
From stdpp Require Import base option list strings gmap.

#[local] Open Scope string_scope.

(** ** The C++ runtime the module is written against *)

Module Cxx.

(** A [double] is an exact rational. *)
Abbreviation double := Q (only parsing).

(** The characters that a Rocq string literal cannot spell. *)
Definition dq : string := String "034"%char EmptyString.
Definition nl : string := String "010"%char EmptyString.

(** Conversions [int -> double] and [size_t -> double]. *)
Definition of_int (n : Z) : double := inject_Z n.
Definition of_size (n : nat) : double := inject_Z (Z.of_nat n).

(** [a < b], [a > b] and [a == b] on doubles. *)
Definition dlt (a b : double) : bool := negb (Qle_bool b a).
Definition dgt (a b : double) : bool := dlt b a.
Definition deq (a b : double) : bool := Qeq_bool a b.

(** [std::max(a, b)] is [(a < b) ? b : a]; [std::min(a, b)] is
    [(b < a) ? b : a]. *)
Definition std_max (a b : double) : double := if dlt a b then b else a.
Definition std_min (a b : double) : double := if dlt b a then b else a.

(** [M_PI], the literal of <cmath>. *)
Definition M_PI : double := 3.14159265358979323846%Q.

(** Truncation toward zero, the value of a [double -> int] conversion
    when it fits. *)
Definition trunc (d : double) : Z := Z.quot (Qnum d) (Z.pos (Qden d)).

Definition INT_MIN : Z := - 2 ^ 31.
Definition INT_MAX : Z := 2 ^ 31 - 1.
Definition fits_int (d : double) : bool :=
  (INT_MIN <=? trunc d)%Z && (trunc d <=? INT_MAX)%Z.

(** [std::to_string(int)]: decimal digits, a minus sign when negative. *)
Definition to_string_int (n : Z) : string :=
  NilZero.string_of_int (Z.to_int n).

(** Integer division of two [int]s truncates toward zero. *)
Definition idiv (a b : Z) : Z := Z.quot a b.

(** [s.find(c)]: the position of the first [c], [None] for [npos]. *)
Fixpoint str_find (c : ascii) (s : string) : option nat :=
  match s with
  | EmptyString => None
  | String a s' => if Ascii.eqb a c then Some 0%nat else S <$> str_find c s'
  end.

(** [s.substr(pos, n)] and [s.substr(pos)]. *)
Definition substr (pos n : nat) (s : string) : string :=
  String.substring pos n s.
Definition substr_from (pos : nat) (s : string) : string :=
  String.substring pos (String.length s - pos) s.

(** [v.empty()]. *)
Definition empty {A : Type} (v : list A) : bool :=
  match v with [] => true | _ => false end.

#[export] Instance double_inhabited : Inhabited double := populate 0%Q.

(** [std::getline(ss, item, delim)] on a stream whose unread part is
    [s].  When nothing is left the extraction fails and the stream
    tests false.  Otherwise the characters before the first [delim]
    go to [item], and the delimiter is consumed and not stored. *)
Fixpoint getline_scan (delim : ascii) (s : string) : string * string :=
  match s with
  | EmptyString => (EmptyString, EmptyString)
  | String c s' =>
      if Ascii.eqb c delim then (EmptyString, s')
      else let '(item, rest) := getline_scan delim s' in
           (String c item, rest)
  end.

Definition getline (delim : ascii) (s : string) : option (string * string) :=
  match s with
  | EmptyString => None
  | _ => Some (getline_scan delim s)
  end.

(** The part of the machine that the module acts on: the files of the
    working directory, which of them [std::ofstream] can open, the
    exit status [system] reports for a command, and the commands run
    so far. *)
Record World : Type := mkWorld {
  files : gmap string string;
  can_open : string → bool;
  system_status : string → Z;
  launched : list string
}.

(** The library functions reached through [StdLib].
    - [stod s] is [None] when [std::stod] throws
      ([std::invalid_argument], [std::out_of_range]); an empty string
      holds no number, so it throws on it.
    - [cast_undefined d] is what the target yields for [(int)d] when
      the truncated value does not fit an [int], which C++ leaves
      undefined. *)
Class StdLib : Type := {
  stod : string → option double;
  to_string : double → string;
  cos : double → double;
  sin : double → double;
  cast_undefined : double → Z;
  stod_empty : stod EmptyString = None
}.

(** [(int)d]. *)
Definition cast_int `{StdLib} (d : double) : Z :=
  if fits_int d then trunc d else cast_undefined d.

End Cxx.
Export Cxx.

(** Modelled from the spec: neutron.h, the host runtime's value type,
    is not among the sources.  The module is "loaded by a host scripting
    runtime" and "receives arguments as opaque host-language values
    (strings only)"; the embedding keeps the three operations the module
    calls on them. *)
Inductive NeutronValue : Type :=
  | NeutronString (s : string)
  | NeutronBoolean (b : bool)
  | NeutronNil.

Definition neutron_is_string (v : NeutronValue) : bool :=
  match v with NeutronString _ => true | _ => false end.

Definition neutron_get_string (v : NeutronValue) : string :=
  match v with NeutronString s => s | _ => EmptyString end.

Definition neutron_new_boolean (b : bool) : NeutronValue := NeutronBoolean b.

#[export] Instance NeutronValue_inhabited : Inhabited NeutronValue :=
  populate NeutronNil.

(** ** namespace graphs *)

Module graphs.

Module Point.
Record t : Type := mk { x : double; y : double }.
End Point.

Module GraphConfig.
Record t : Type := mk {
  width : Z;
  height : Z;
  padding : Z;
  title : string;
  xlabel : string;
  ylabel : string;
  color : string;
  bgColor : string;
  showGrid : bool;
  showLegend : bool
}.

(** The default member initialisers. *)
Definition default : t :=
  {| width := 800; height := 600; padding := 60;
     title := "Graph"; xlabel := "X"; ylabel := "Y";
     color := "#2563eb"; bgColor := "#ffffff";
     showGrid := true; showLegend := true |}.

Definition set_title (s : string) (c : t) : t :=
  {| width := width c; height := height c; padding := padding c;
     title := s; xlabel := xlabel c; ylabel := ylabel c;
     color := color c; bgColor := bgColor c;
     showGrid := showGrid c; showLegend := showLegend c |}.
End GraphConfig.

Section Parsers.
Context `{StdLib}.

(** [while (std::getline(ss, item, ','))] with the body
    [try { values.push_back(std::stod(item)); } catch (...) {}].
    Every successful [getline] consumes a character, so
    [S (length str)] rounds are enough to reach the failing one. *)
Fixpoint parseCSV_loop (fuel : nat) (ss : string) (values : list double)
  : list double :=
  match fuel with
  | O => values
  | S fuel' =>
      match getline "," ss with
      | None => values
      | Some (item, ss') =>
          match stod item with
          | Some d => parseCSV_loop fuel' ss' (values ++ [d])
          | None => parseCSV_loop fuel' ss' values
          end
      end
  end.

Definition parseCSV (str : string) : list double :=
  parseCSV_loop (S (String.length str)) str [].

(** The body of the loop of [parsePoints]: both conversions sit in
    one [try], so a throw from either skips the pair. *)
Definition parsePoints_body (pair_s : string) (points : list Point.t)
  : list Point.t :=
  match str_find ":" pair_s with
  | Some colon =>
      match stod (substr 0 colon pair_s) with
      | Some x =>
          match stod (substr_from (colon + 1) pair_s) with
          | Some y => points ++ [Point.mk x y]
          | None => points
          end
      | None => points
      end
  | None => points
  end.

Fixpoint parsePoints_loop (fuel : nat) (ss : string) (points : list Point.t)
  : list Point.t :=
  match fuel with
  | O => points
  | S fuel' =>
      match getline "," ss with
      | None => points
      | Some (pair_s, ss') =>
          parsePoints_loop fuel' ss' (parsePoints_body pair_s points)
      end
  end.

Definition parsePoints (str : string) : list Point.t :=
  parsePoints_loop (S (String.length str)) str [].

End Parsers.

(** [for (size_t i = 0; i < n; i++) body]; the loop makes at most [n]
    rounds, so [n] units of fuel see it through. *)
Fixpoint for_size {St : Type} (fuel : nat) (i n : nat)
  (body : nat → St → St) (s : St) : St :=
  match fuel with
  | O => s
  | S fuel' => if (i <? n)%nat then for_size fuel' (i + 1) n body (body i s)
               else s
  end.

#[export] Instance Point_inhabited : Inhabited Point.t :=
  populate (Point.mk 0 0).

Module SVGGraph.

(** The members of the class: the document under construction, the
    configuration and the bounding box.  The constructor sets [config]
    only; the embedding starts with an empty document and a zero box,
    and no method reads the box before assigning it. *)
Record t : Type := mk {
  svg : string;
  config : GraphConfig.t;
  minX : double;
  maxX : double;
  minY : double;
  maxY : double
}.

Definition new (cfg : GraphConfig.t) : t := mk "" cfg 0 0 0 0.

Definition set_svg (s : string) (g : t) : t :=
  mk s (config g) (minX g) (maxX g) (minY g) (maxY g).
Definition set_minX (v : double) (g : t) : t :=
  mk (svg g) (config g) v (maxX g) (minY g) (maxY g).
Definition set_maxX (v : double) (g : t) : t :=
  mk (svg g) (config g) (minX g) v (minY g) (maxY g).
Definition set_minY (v : double) (g : t) : t :=
  mk (svg g) (config g) (minX g) (maxX g) v (maxY g).
Definition set_maxY (v : double) (g : t) : t :=
  mk (svg g) (config g) (minX g) (maxX g) (minY g) v.

(** [svg += s]. *)
Definition append (s : string) (g : t) : t := set_svg (svg g ++ s) g.

Section Methods.
Context `{StdLib}.
Import GraphConfig.

Definition init (g : SVGGraph.t) : SVGGraph.t :=
  let g := set_svg ("<?xml version=" ++ dq ++ "1.0" ++ dq ++ " encoding="
                    ++ dq ++ "UTF-8" ++ dq ++ "?>" ++ nl) g in
  let g := append ("<svg xmlns=" ++ dq ++ "http://www.w3.org/2000/svg" ++ dq
                   ++ " width=" ++ dq ++ to_string_int (width (config g))
                   ++ dq ++ " height=" ++ dq
                   ++ to_string_int (height (config g)) ++ dq ++ ">" ++ nl) g in
  append ("<rect width=" ++ dq ++ "100%" ++ dq ++ " height=" ++ dq ++ "100%"
          ++ dq ++ " fill=" ++ dq ++ bgColor (config g) ++ dq ++ "/>" ++ nl) g.

Definition drawGrid (g : SVGGraph.t) : SVGGraph.t :=
  let c := config g in
  if negb (showGrid c) then g else
  let chartWidth := (width c - 2 * padding c)%Z in
  let chartHeight := (height c - 2 * padding c)%Z in
  let g := append ("<g id=" ++ dq ++ "grid" ++ dq ++ " stroke=" ++ dq
                   ++ "#e5e7eb" ++ dq ++ " stroke-width=" ++ dq ++ "1" ++ dq
                   ++ ">" ++ nl) g in
  (* Vertical lines: for (int i = 0; i <= 10; i++) *)
  let g := fold_left (fun g i =>
      let x := (padding c + idiv (chartWidth * i) 10)%Z in
      append ("<line x1=" ++ dq ++ to_string_int x ++ dq ++ " y1=" ++ dq
              ++ to_string_int (padding c) ++ dq ++ " x2=" ++ dq
              ++ to_string_int x ++ dq ++ " y2=" ++ dq
              ++ to_string_int (height c - padding c) ++ dq ++ "/>" ++ nl) g)
    (seqZ 0 11) g in
  (* Horizontal lines: for (int i = 0; i <= 10; i++) *)
  let g := fold_left (fun g i =>
      let y := (padding c + idiv (chartHeight * i) 10)%Z in
      append ("<line x1=" ++ dq ++ to_string_int (padding c) ++ dq ++ " y1="
              ++ dq ++ to_string_int y ++ dq ++ " x2=" ++ dq
              ++ to_string_int (width c - padding c) ++ dq ++ " y2=" ++ dq
              ++ to_string_int y ++ dq ++ "/>" ++ nl) g)
    (seqZ 0 11) g in
  append ("</g>" ++ nl) g.

Definition drawAxes (g : SVGGraph.t) : SVGGraph.t :=
  let c := config g in
  let g := append ("<g id=" ++ dq ++ "axes" ++ dq ++ " stroke=" ++ dq
                   ++ "#1f2937" ++ dq ++ " stroke-width=" ++ dq ++ "2" ++ dq
                   ++ ">" ++ nl) g in
  (* X-axis *)
  let g := append ("<line x1=" ++ dq ++ to_string_int (padding c) ++ dq
                   ++ " y1=" ++ dq ++ to_string_int (height c - padding c)
                   ++ dq ++ " x2=" ++ dq
                   ++ to_string_int (width c - padding c) ++ dq ++ " y2="
                   ++ dq ++ to_string_int (height c - padding c) ++ dq
                   ++ "/>" ++ nl) g in
  (* Y-axis *)
  let g := append ("<line x1=" ++ dq ++ to_string_int (padding c) ++ dq
                   ++ " y1=" ++ dq ++ to_string_int (padding c) ++ dq
                   ++ " x2=" ++ dq ++ to_string_int (padding c) ++ dq
                   ++ " y2=" ++ dq ++ to_string_int (height c - padding c)
                   ++ dq ++ "/>" ++ nl) g in
  append ("</g>" ++ nl) g.

Definition drawLabels (g : SVGGraph.t) : SVGGraph.t :=
  let c := config g in
  (* Title *)
  let g := append ("<text x=" ++ dq ++ to_string_int (idiv (width c) 2) ++ dq
                   ++ " y=" ++ dq ++ "30" ++ dq ++ " text-anchor=" ++ dq
                   ++ "middle" ++ dq ++ " font-size=" ++ dq ++ "20" ++ dq
                   ++ " font-weight=" ++ dq ++ "bold" ++ dq ++ " fill=" ++ dq
                   ++ "#1f2937" ++ dq ++ ">" ++ title c ++ "</text>" ++ nl) g in
  (* X-label *)
  let g := append ("<text x=" ++ dq ++ to_string_int (idiv (width c) 2) ++ dq
                   ++ " y=" ++ dq ++ to_string_int (height c - 10) ++ dq
                   ++ " text-anchor=" ++ dq ++ "middle" ++ dq ++ " font-size="
                   ++ dq ++ "14" ++ dq ++ " fill=" ++ dq ++ "#4b5563" ++ dq
                   ++ ">" ++ xlabel c ++ "</text>" ++ nl) g in
  (* Y-label *)
  append ("<text x=" ++ dq ++ "20" ++ dq ++ " y=" ++ dq
          ++ to_string_int (idiv (height c) 2) ++ dq ++ " text-anchor=" ++ dq
          ++ "middle" ++ dq ++ " font-size=" ++ dq ++ "14" ++ dq ++ " fill="
          ++ dq ++ "#4b5563" ++ dq ++ " " ++ "transform=" ++ dq
          ++ "rotate(-90 20 " ++ to_string_int (idiv (height c) 2) ++ ")"
          ++ dq ++ ">" ++ ylabel c ++ "</text>" ++ nl) g.

Definition scaleX (g : SVGGraph.t) (x : double) : double :=
  let chartWidth := (width (config g) - 2 * padding (config g))%Z in
  (of_int (padding (config g))
   + ((x - minX g) / (maxX g - minX g)) * of_int chartWidth)%Q.

Definition scaleY (g : SVGGraph.t) (y : double) : double :=
  let chartHeight := (height (config g) - 2 * padding (config g))%Z in
  (of_int (height (config g) - padding (config g))
   - ((y - minY g) / (maxY g - minY g)) * of_int chartHeight)%Q.

(** The bounds loop shared by [lineChart] and [scatterPlot]:
    [for (const auto& p : points)] with the four min/max updates. *)
Definition find_bounds (points : list Point.t) (g : SVGGraph.t) : SVGGraph.t :=
  fold_left (fun g p =>
      let g := set_minX (std_min (minX g) (Point.x p)) g in
      let g := set_maxX (std_max (maxX g) (Point.x p)) g in
      let g := set_minY (std_min (minY g) (Point.y p)) g in
      set_maxY (std_max (maxY g) (Point.y p)) g)
    points g.

(** "Add padding to bounds": 5% of each range on both ends. *)
Definition pad_bounds (g : SVGGraph.t) : SVGGraph.t :=
  let xRange := (maxX g - minX g)%Q in
  let yRange := (maxY g - minY g)%Q in
  let g := set_minX (minX g - xRange * 0.05)%Q g in
  let g := set_maxX (maxX g + xRange * 0.05)%Q g in
  let g := set_minY (minY g - yRange * 0.05)%Q g in
  set_maxY (maxY g + yRange * 0.05)%Q g.

Definition lineChart (points : list Point.t) (g : SVGGraph.t) : SVGGraph.t :=
  match points with
  | [] => g
  | p0 :: _ =>
      (* Find bounds *)
      let g := set_maxX (Point.x p0) g in
      let g := set_minX (maxX g) g in
      let g := set_maxY (Point.y p0) g in
      let g := set_minY (maxY g) g in
      let g := find_bounds points g in
      let g := pad_bounds g in
      let g := init g in
      let g := drawGrid g in
      let g := drawAxes g in
      let g := drawLabels g in
      (* Draw line *)
      let g := append ("<polyline points=" ++ dq) g in
      let g := fold_left (fun g p =>
          append (to_string (scaleX g (Point.x p)) ++ ","
                  ++ to_string (scaleY g (Point.y p)) ++ " ") g)
        points g in
      let g := append (dq ++ " fill=" ++ dq ++ "none" ++ dq ++ " stroke=" ++ dq
                       ++ color (config g) ++ dq ++ " stroke-width=" ++ dq
                       ++ "2" ++ dq ++ "/>" ++ nl) g in
      (* Draw points *)
      let g := fold_left (fun g p =>
          append ("<circle cx=" ++ dq ++ to_string (scaleX g (Point.x p)) ++ dq
                  ++ " cy=" ++ dq ++ to_string (scaleY g (Point.y p)) ++ dq
                  ++ " r=" ++ dq ++ "4" ++ dq ++ " fill=" ++ dq
                  ++ color (config g) ++ dq ++ "/>" ++ nl) g)
        points g in
      append "</svg>" g
  end.

(** The body of the bar loop, for the index [i]. *)
Definition barChart_body (points : list Point.t) (chartWidth : Z)
  (barWidth : double) (i : nat) (g : SVGGraph.t) : SVGGraph.t :=
  let c := config g in
  let x := (of_int (padding c)
            + (of_int chartWidth * (of_size i + 0.5))
              / of_size (length points))%Q in
  let height_ := (((Point.y (points !!! i) - minY g) / (maxY g - minY g))
                  * of_int (height c - 2 * padding c))%Q in
  let y := (of_int (height c - padding c) - height_)%Q in
  let g := append ("<rect x=" ++ dq ++ to_string (x - barWidth / 2)%Q ++ dq
                   ++ " y=" ++ dq ++ to_string y ++ dq ++ " width=" ++ dq
                   ++ to_string barWidth ++ dq ++ " height=" ++ dq
                   ++ to_string height_ ++ dq ++ " fill=" ++ dq ++ color c
                   ++ dq ++ " opacity=" ++ dq ++ "0.8" ++ dq ++ "/>" ++ nl) g in
  (* Value label on top of bar *)
  append ("<text x=" ++ dq ++ to_string x ++ dq ++ " y=" ++ dq
          ++ to_string (y - 5)%Q ++ dq ++ " text-anchor=" ++ dq ++ "middle"
          ++ dq ++ " font-size=" ++ dq ++ "12" ++ dq ++ " fill=" ++ dq
          ++ "#1f2937" ++ dq ++ ">"
          ++ to_string_int (cast_int (Point.y (points !!! i)))
          ++ "</text>" ++ nl) g.

Definition barChart (points : list Point.t) (g : SVGGraph.t) : SVGGraph.t :=
  match points with
  | [] => g
  | p0 :: _ =>
      (* Find bounds *)
      let g := set_minX 0 g in
      let g := set_maxX (of_size (length points)) g in
      let g := set_minY 0 g in
      let g := set_maxY (Point.y p0) g in
      let g := fold_left (fun g p =>
          set_maxY (std_max (maxY g) (Point.y p)) g) points g in
      let g := set_maxY (maxY g * 1.1)%Q g in (* Add 10% padding *)
      let g := init g in
      let g := drawGrid g in
      let g := drawAxes g in
      let g := drawLabels g in
      (* Draw bars *)
      let chartWidth := (width (config g) - 2 * padding (config g))%Z in
      let barWidth := (of_int chartWidth / (of_size (length points) * 1.5))%Q in
      let g := for_size (length points) 0 (length points)
                 (barChart_body points chartWidth barWidth) g in
      append "</svg>" g
  end.

Definition scatterPlot (points : list Point.t) (g : SVGGraph.t) : SVGGraph.t :=
  match points with
  | [] => g
  | p0 :: _ =>
      (* Find bounds *)
      let g := set_maxX (Point.x p0) g in
      let g := set_minX (maxX g) g in
      let g := set_maxY (Point.y p0) g in
      let g := set_minY (maxY g) g in
      let g := find_bounds points g in
      let g := pad_bounds g in
      let g := init g in
      let g := drawGrid g in
      let g := drawAxes g in
      let g := drawLabels g in
      (* Draw scatter points *)
      let g := fold_left (fun g p =>
          append ("<circle cx=" ++ dq ++ to_string (scaleX g (Point.x p)) ++ dq
                  ++ " cy=" ++ dq ++ to_string (scaleY g (Point.y p)) ++ dq
                  ++ " r=" ++ dq ++ "5" ++ dq ++ " fill=" ++ dq
                  ++ color (config g) ++ dq ++ " opacity=" ++ dq ++ "0.7"
                  ++ dq ++ "/>" ++ nl) g)
        points g in
      append "</svg>" g
  end.

Definition getSVG (g : SVGGraph.t) : string := svg g.

End Methods.
End SVGGraph.

(** [std::ofstream file(filename)], then the write. *)
Definition saveToFile (filename content : string) (w : World)
  : bool * World :=
  if negb (can_open w filename) then (false, w)
  else (true, mkWorld (<[filename := content]> (files w)) (can_open w)
                (system_status w) (launched w)).

(** The branch of the [#ifdef] taken on Linux: [xdg-open]. *)
Definition openInBrowser (filename : string) (w : World) : bool * World :=
  let cmd := "xdg-open " ++ filename in
  ((system_status w cmd =? 0)%Z,
   mkWorld (files w) (can_open w) (system_status w) (launched w ++ [cmd])).

End graphs.

(** ** The exported native functions *)

Section Natives.
Context `{StdLib}.
Import graphs.

(** Native function: graphs.line(data, title);
    data format: "x1:y1,x2:y2,x3:y3" (coordinate pairs). *)
Definition graphs_line (args : list NeutronValue) (w : World)
  : NeutronValue * World :=
  if (length args <? 1)%nat || negb (neutron_is_string (args !!! 0%nat))
  then (neutron_new_boolean false, w)
  else
    (* Get data string *)
    let data := neutron_get_string (args !!! 0%nat) in
    (* Parse points *)
    let points := parsePoints data in
    if empty points then (neutron_new_boolean false, w)
    else
      (* Get config *)
      let config := GraphConfig.default in
      let config :=
        if (2 <=? length args)%nat && neutron_is_string (args !!! 1%nat)
        then GraphConfig.set_title (neutron_get_string (args !!! 1%nat)) config
        else config in
      (* Generate graph *)
      let graph := SVGGraph.new config in
      let graph := SVGGraph.lineChart points graph in
      (* Save to file *)
      let filename := "graph_line.svg" in
      let '(success, w) := saveToFile filename (SVGGraph.getSVG graph) w in
      let w := if success then snd (openInBrowser filename w) else w in
      (neutron_new_boolean success, w).

(** "Try parsing as points first, then as simple values": a [':']
    anywhere in the data selects the pair form; otherwise each value
    gets its position as [x]. *)
Definition bar_points (data : string) : list Point.t :=
  match str_find ":" data with
  | Some _ => parsePoints data
  | None =>
      let values := parseCSV data in
      for_size (length values) 0 (length values)
        (fun i points =>
           (points ++ [Point.mk (of_size i) (values !!! i)])%list)
        []
  end.

(** Native function: graphs.bar(data, title);
    data format: "10,20,15,30,25" (simple values) or "x1:y1,x2:y2"
    (pairs). *)
Definition graphs_bar (args : list NeutronValue) (w : World)
  : NeutronValue * World :=
  if (length args <? 1)%nat || negb (neutron_is_string (args !!! 0%nat))
  then (neutron_new_boolean false, w)
  else
    (* Get data string *)
    let data := neutron_get_string (args !!! 0%nat) in
    let points := bar_points data in
    if empty points then (neutron_new_boolean false, w)
    else
      (* Get config *)
      let config := GraphConfig.default in
      let config :=
        if (2 <=? length args)%nat && neutron_is_string (args !!! 1%nat)
        then GraphConfig.set_title (neutron_get_string (args !!! 1%nat)) config
        else config in
      (* Generate graph *)
      let graph := SVGGraph.new config in
      let graph := SVGGraph.barChart points graph in
      (* Save to file *)
      let filename := "graph_bar.svg" in
      let '(success, w) := saveToFile filename (SVGGraph.getSVG graph) w in
      let w := if success then snd (openInBrowser filename w) else w in
      (neutron_new_boolean success, w).

(** Native function: graphs.scatter(data, title);
    data format: "x1:y1,x2:y2,x3:y3" (coordinate pairs). *)
Definition graphs_scatter (args : list NeutronValue) (w : World)
  : NeutronValue * World :=
  if (length args <? 1)%nat || negb (neutron_is_string (args !!! 0%nat))
  then (neutron_new_boolean false, w)
  else
    (* Get data string *)
    let data := neutron_get_string (args !!! 0%nat) in
    (* Parse points *)
    let points := parsePoints data in
    if empty points then (neutron_new_boolean false, w)
    else
      (* Get config *)
      let config := GraphConfig.default in
      let config :=
        if (2 <=? length args)%nat && neutron_is_string (args !!! 1%nat)
        then GraphConfig.set_title (neutron_get_string (args !!! 1%nat)) config
        else config in
      (* Generate graph *)
      let graph := SVGGraph.new config in
      let graph := SVGGraph.scatterPlot points graph in
      (* Save to file *)
      let filename := "graph_scatter.svg" in
      let '(success, w) := saveToFile filename (SVGGraph.getSVG graph) w in
      let w := if success then snd (openInBrowser filename w) else w in
      (neutron_new_boolean success, w).

Definition pie_colors : list string :=
  ["#3b82f6"; "#ef4444"; "#10b981"; "#f59e0b"; "#8b5cf6"; "#ec4899"].

(** [double total = 0; for (double val : values) total += val;] *)
Definition pie_total (values : list double) : double :=
  fold_left (fun total val => (total + val)%Q) values 0%Q.

(** The body of the slice loop of [graphs_pie], for the index [i]; the
    loop carries the document and [startAngle]. *)
Definition pie_body (values : list double) (total : double)
  (colors : list string) (cx cy radius : double) (i : nat)
  (st : string * double) : string * double :=
  let '(svg, startAngle) := st in
  let angle := ((values !!! i / total) * 360)%Q in
  let endAngle := (startAngle + angle)%Q in
  (* Calculate arc path *)
  let x1 := (cx + radius * cos (startAngle * M_PI / 180))%Q in
  let y1 := (cy + radius * sin (startAngle * M_PI / 180))%Q in
  let x2 := (cx + radius * cos (endAngle * M_PI / 180))%Q in
  let y2 := (cy + radius * sin (endAngle * M_PI / 180))%Q in
  let largeArc := if dgt angle 180 then 1%Z else 0%Z in
  let svg := svg ++ ("<path d=" ++ dq ++ "M " ++ to_string cx ++ " "
                     ++ to_string cy) in
  let svg := svg ++ (" L " ++ to_string x1 ++ " " ++ to_string y1) in
  let svg := svg ++ (" A " ++ to_string radius ++ " " ++ to_string radius) in
  let svg := svg ++ (" 0 " ++ to_string_int largeArc ++ " 1 ") in
  let svg := svg ++ (to_string x2 ++ " " ++ to_string y2 ++ " Z" ++ dq) in
  let svg := svg ++ (" fill=" ++ dq ++ colors !!! (i mod length colors)%nat
                     ++ dq ++ " stroke=" ++ dq ++ "white" ++ dq
                     ++ " stroke-width=" ++ dq ++ "2" ++ dq ++ "/>" ++ nl) in
  (* Label *)
  let labelAngle := (startAngle + angle / 2)%Q in
  let labelX := (cx + (radius * 0.7) * cos (labelAngle * M_PI / 180))%Q in
  let labelY := (cy + (radius * 0.7) * sin (labelAngle * M_PI / 180))%Q in
  let percent := cast_int ((values !!! i / total) * 100)%Q in
  let svg := svg ++ ("<text x=" ++ dq ++ to_string labelX ++ dq ++ " y=" ++ dq
                     ++ to_string labelY ++ dq ++ " text-anchor=" ++ dq
                     ++ "middle" ++ dq ++ " font-size=" ++ dq ++ "14" ++ dq
                     ++ " fill=" ++ dq ++ "white" ++ dq ++ " font-weight="
                     ++ dq ++ "bold" ++ dq ++ ">" ++ to_string_int percent
                     ++ "%</text>" ++ nl) in
  (svg, endAngle).

(** "Draw pie": the slice loop, entered with [startAngle = -90]. *)
Definition pie_loop (values : list double) (total : double) (svg : string)
  : string * double :=
  let cx := 400%Q in
  let cy := 320%Q in
  let radius := 180%Q in
  let startAngle := (-90)%Q in (* Start from top *)
  for_size (length values) 0 (length values)
    (pie_body values total pie_colors cx cy radius) (svg, startAngle).

(** Native function: graphs.pie(data, title);
    data format: "10,20,15,30,25" (simple values). *)
Definition graphs_pie (args : list NeutronValue) (w : World)
  : NeutronValue * World :=
  if (length args <? 1)%nat || negb (neutron_is_string (args !!! 0%nat))
  then (neutron_new_boolean false, w)
  else
    (* Get data string *)
    let data := neutron_get_string (args !!! 0%nat) in
    (* Parse values *)
    let values := parseCSV data in
    if empty values then (neutron_new_boolean false, w)
    else
      let total := pie_total values in
      if deq total 0 then (neutron_new_boolean false, w)
      else
        (* Generate SVG *)
        let svg := "<?xml version=" ++ dq ++ "1.0" ++ dq ++ " encoding=" ++ dq
                   ++ "UTF-8" ++ dq ++ "?>" ++ nl in
        let svg := svg ++ ("<svg xmlns=" ++ dq ++ "http://www.w3.org/2000/svg"
                           ++ dq ++ " width=" ++ dq ++ "800" ++ dq
                           ++ " height=" ++ dq ++ "600" ++ dq ++ ">" ++ nl) in
        let svg := svg ++ ("<rect width=" ++ dq ++ "100%" ++ dq ++ " height="
                           ++ dq ++ "100%" ++ dq ++ " fill=" ++ dq ++ "#ffffff"
                           ++ dq ++ "/>" ++ nl) in
        (* Title *)
        let title := "Pie Chart" in
        let title :=
          if (2 <=? length args)%nat && neutron_is_string (args !!! 1%nat)
          then neutron_get_string (args !!! 1%nat)
          else title in
        let svg := svg ++ ("<text x=" ++ dq ++ "400" ++ dq ++ " y=" ++ dq
                           ++ "30" ++ dq ++ " text-anchor=" ++ dq ++ "middle"
                           ++ dq ++ " font-size=" ++ dq ++ "20" ++ dq
                           ++ " font-weight=" ++ dq ++ "bold" ++ dq ++ ">"
                           ++ title ++ "</text>" ++ nl) in
        (* Draw pie *)
        let '(svg, _) := pie_loop values total svg in
        let svg := svg ++ "</svg>" in
        (* Save and open *)
        let filename := "graph_pie.svg" in
        let '(success, w) := saveToFile filename svg w in
        let w := if success then snd (openInBrowser filename w) else w in
        (neutron_new_boolean success, w).

End Natives.

(** ** An executable implementation of the library interface

    Decimal input and [%f] output on exact rationals, and polynomial
    approximations of [cos] and [sin].  It is used to run the module on
    concrete inputs; no general theorem depends on it. *)

Module Reference.

Definition isspace (c : ascii) : bool :=
  let n := nat_of_ascii c in
  (n =? 32)%nat || ((9 <=? n)%nat && (n <=? 13)%nat).

Definition digit_of (c : ascii) : option Z :=
  let n := nat_of_ascii c in
  if (48 <=? n)%nat && (n <=? 57)%nat then Some (Z.of_nat (n - 48)) else None.

Fixpoint skip_space (s : string) : string :=
  match s with
  | String c s' => if isspace c then skip_space s' else s
  | EmptyString => s
  end.

(** An optional sign: whether it is a minus, and what follows it. *)
Definition take_sign (s : string) : bool * string :=
  match s with
  | String "-" s' => (true, s')
  | String "+" s' => (false, s')
  | _ => (false, s)
  end.

(** The longest run of decimal digits at the head of [s], read after
    the digits already in [acc]: the number, how many digits were read,
    and what follows them. *)
Fixpoint take_digits (s : string) (acc : Z) (count : nat)
  : Z * nat * string :=
  match s with
  | String c s' =>
      match digit_of c with
      | Some d => take_digits s' (10 * acc + d)%Z (S count)
      | None => (acc, count, s)
      end
  | EmptyString => (acc, count, s)
  end.

(** The exponent part, when it is well formed; otherwise it is not part
    of the number and counts as zero. *)
Definition take_exponent (s : string) : Z :=
  match s with
  | String c s' =>
      if Ascii.eqb c "e" || Ascii.eqb c "E" then
        let '(neg, s'') := take_sign s' in
        let '(e, n, _) := take_digits s'' 0%Z 0%nat in
        match n with
        | O => 0%Z
        | _ => if neg then (- e)%Z else e
        end
      else 0%Z
  | EmptyString => 0%Z
  end.

Definition DBL_MAX : Q := inject_Z ((2 ^ 53 - 1) * 2 ^ 971).
Definition DBL_MIN : Q := (1 # (2 ^ 1022))%Q.

(** [std::stod] on the decimal spellings: leading white space, a sign,
    digits with an optional point, an optional exponent; what follows
    the number is ignored.  It throws when there is no digit and when
    the value is beyond the range of a double.  The hexadecimal,
    infinity and NaN spellings have no value here and are refused. *)
Definition stod (s : string) : option double :=
  let s := skip_space s in
  let '(neg, s) := take_sign s in
  let '(m, ni, s) := take_digits s 0%Z 0%nat in
  let '(m, nf, s) :=
    match s with
    | String "." s' => take_digits s' m 0%nat
    | _ => (m, 0%nat, s)
    end in
  match (ni + nf)%nat with
  | O => None
  | _ =>
      match ni, m, s with
      | 1%nat, 0%Z, String "x" _ | 1%nat, 0%Z, String "X" _ => None
      | _, _, _ =>
          let e := take_exponent s in
          let v := Qred (inject_Z m * 10 ^ (e - Z.of_nat nf))%Q in
          if Qle_bool v DBL_MAX && (Qeq_bool v 0 || Qle_bool DBL_MIN v)
          then Some (if neg then Qred (- v) else v)
          else None
      end
  end.

(** The nearest integer to a non-negative rational, ties to even. *)
Definition round_half_even (q : Q) : Z :=
  let a := Qnum q in
  let b := Z.pos (Qden q) in
  let f := (a / b)%Z in
  let r := (a mod b)%Z in
  match (2 * r ?= b)%Z with
  | Lt => f
  | Gt => (f + 1)%Z
  | Eq => if Z.even f then f else (f + 1)%Z
  end.

Definition pad6 (s : string) : string :=
  String.substring 0 (6 - String.length s) "000000" ++ s.

(** [std::to_string(double)], that is [%f]: six digits after the point. *)
Definition to_string (d : double) : string :=
  let n := round_half_even (Qabs d * 1000000)%Q in
  (if dlt d 0 then "-" else "")
  ++ to_string_int (n / 1000000) ++ "." ++ pad6 (to_string_int (n mod 1000000)).

(** [cos] and [sin] by their power series, in fixed point with thirty
    decimal places: [series] adds the terms
    [(-1)^k x^(2k+j) / (2k+j)!] from the term [t] of rank [k], the
    cosine for [j = 0] and the sine for [j = 1]. *)
Definition scale : Z := 10 ^ 30.

Fixpoint series (n : nat) (x2 : Z) (j k : Z) (t acc : Z) : Z :=
  match n with
  | O => acc
  | S n' =>
      series n' x2 j (k + 1)%Z
        (- t * x2 / scale / ((2 * k + j + 1) * (2 * k + j + 2)))%Z
        (acc + t)%Z
  end.

Definition fixed (x : double) : Z := Qfloor (x * inject_Z scale)%Q.
Definition unfixed (n : Z) : double := Qred (inject_Z n / inject_Z scale)%Q.

Definition cos (x : double) : double :=
  let n := fixed x in
  unfixed (series 30 (n * n / scale)%Z 0 0 scale 0%Z).

Definition sin (x : double) : double :=
  let n := fixed x in
  unfixed (series 30 (n * n / scale)%Z 1 0 n 0%Z).

(** The result of an out-of-range conversion on x86-64. *)
Definition cast_undefined (d : double) : Z := INT_MIN.

Definition lib : StdLib :=
  {| Cxx.stod := stod;
     Cxx.to_string := to_string;
     Cxx.cos := cos;
     Cxx.sin := sin;
     Cxx.cast_undefined := cast_undefined;
     Cxx.stod_empty := eq_refl |}.

End Reference.


(** A machine to run the natives on: an empty working directory in
    which every file can be created and every command succeeds. *)
Definition fresh_world : World :=
  mkWorld ∅ (fun _ => true) (fun _ => 0%Z) [].

(** ** The specification's vocabulary

    The notions the specification uses and the code does not name: the
    segments of a delimited string, the two halves of a pair, the frame
    of a chart, the bars of a bar chart and the slices of a pie. *)

Module Spec.
Import graphs.

(** "split on [,]": the segments between the delimiters, in order; a
    string without delimiter is one segment. *)
Fixpoint split_on (delim : ascii) (s : string) : list string :=
  match s with
  | EmptyString => [EmptyString]
  | String c s' =>
      if Ascii.eqb c delim then EmptyString :: split_on delim s'
      else match split_on delim s' with
           | seg :: segs => String c seg :: segs
           | [] => [String c EmptyString]
           end
  end.

(** "find the first [:]": the substrings left and right of it. *)
Fixpoint cut (c : ascii) (s : string) : option (string * string) :=
  match s with
  | EmptyString => None
  | String a s' =>
      if Ascii.eqb a c then Some (EmptyString, s')
      else match cut c s' with
           | Some (l, r) => Some (String a l, r)
           | None => None
           end
  end.

(** "convert the left and right substrings to numbers independently; if
    either conversion fails, drop the whole pair". *)
Definition point_of_segment `{StdLib} (seg : string) : option Point.t :=
  match cut ":" seg with
  | Some (l, r) =>
      match stod l, stod r with
      | Some x, Some y => Some (Point.mk x y)
      | _, _ => None
      end
  | None => None
  end.

(** The pieces of a document, one after the other. *)
Definition glue (pieces : list string) : string :=
  foldr String.append EmptyString pieces.

(** Steps 2 to 5 of the shared skeleton: header, grid, axes, labels. *)
Definition frame (cfg : GraphConfig.t) : string :=
  SVGGraph.svg
    (SVGGraph.drawLabels
       (SVGGraph.drawAxes (SVGGraph.drawGrid (SVGGraph.init (SVGGraph.new cfg))))).

(** One bar: the rectangle by its left edge, top edge, width and
    height, the centre of its slot, and the number printed above it. *)
Record Bar : Type := mkBar {
  bar_left : double;
  bar_top : double;
  bar_width : double;
  bar_height : double;
  bar_center : double;
  bar_label : Z
}.

(** The bar of the value [v] at position [i] among [count], in a box
    whose Y axis runs from [lo] to [hi]. *)
Definition bar `{StdLib} (cfg : GraphConfig.t) (count : nat) (lo hi : double)
  (i : nat) (v : double) : Bar :=
  let innerWidth := of_int (GraphConfig.width cfg - 2 * GraphConfig.padding cfg) in
  let innerHeight :=
    of_int (GraphConfig.height cfg - 2 * GraphConfig.padding cfg) in
  let w := (innerWidth / (of_size count * 1.5))%Q in
  let c := (of_int (GraphConfig.padding cfg)
            + (innerWidth * (of_size i + 0.5)) / of_size count)%Q in
  let h := (((v - lo) / (hi - lo)) * innerHeight)%Q in
  {| bar_left := (c - w / 2)%Q;
     bar_top := (of_int (GraphConfig.height cfg - GraphConfig.padding cfg) - h)%Q;
     bar_width := w;
     bar_height := h;
     bar_center := c;
     bar_label := cast_int v |}.

Definition render_rect `{StdLib} (cfg : GraphConfig.t) (b : Bar) : string :=
  "<rect x=" ++ dq ++ to_string (bar_left b) ++ dq ++ " y=" ++ dq
  ++ to_string (bar_top b) ++ dq ++ " width=" ++ dq ++ to_string (bar_width b)
  ++ dq ++ " height=" ++ dq ++ to_string (bar_height b) ++ dq ++ " fill=" ++ dq
  ++ GraphConfig.color cfg ++ dq ++ " opacity=" ++ dq ++ "0.8" ++ dq ++ "/>"
  ++ nl.

Definition render_label `{StdLib} (b : Bar) : string :=
  "<text x=" ++ dq ++ to_string (bar_center b) ++ dq ++ " y=" ++ dq
  ++ to_string (bar_top b - 5)%Q ++ dq ++ " text-anchor=" ++ dq ++ "middle"
  ++ dq ++ " font-size=" ++ dq ++ "12" ++ dq ++ " fill=" ++ dq ++ "#1f2937"
  ++ dq ++ ">" ++ to_string_int (bar_label b) ++ "</text>" ++ nl.

Definition render_bar `{StdLib} (cfg : GraphConfig.t) (b : Bar) : string :=
  render_rect cfg b ++ render_label b.

(** "the maximum observed y value": a member that no member exceeds. *)
Definition is_maximum (m : double) (vs : list double) : Prop :=
  m ∈ vs ∧ Forall (fun v => (v <= m)%Q) vs.

(** The greatest of the values, as the bar chart finds it: the running
    maximum, started from the first value. *)
Definition highest (vs : list double) : double :=
  match vs with
  | [] => 0%Q
  | v :: _ => fold_left std_max vs v
  end.

(** The bars of a bar chart of the values [vs]: the Y axis runs from 0
    to 1.1 times the greatest value. *)
Definition bars `{StdLib} (cfg : GraphConfig.t) (vs : list double)
  : list Bar :=
  imap (bar cfg (length vs) 0%Q (highest vs * 1.1)%Q) vs.

(** The document of a bar chart: the frame, each bar in order with its
    label, the closing tag. *)
Definition bar_chart `{StdLib} (cfg : GraphConfig.t) (vs : list double)
  : string :=
  frame cfg ++ glue (map (render_bar cfg) (bars cfg vs)) ++ "</svg>".

(** One slice: where its sweep starts, how far it sweeps (degrees), its
    large-arc flag, its colour and the percentage printed on it. *)
Record Slice : Type := mkSlice {
  slice_start : double;
  slice_sweep : double;
  slice_large_arc : Z;
  slice_color : string;
  slice_percent : Z
}.

(** The slices of [values] from the position [i] on, the first starting
    at [start], each starting where the one before ends. *)
Fixpoint slices_from `{StdLib} (total : double) (i : nat) (start : double)
  (values : list double) : list Slice :=
  match values with
  | [] => []
  | v :: values' =>
      let sweep := ((v / total) * 360)%Q in
      {| slice_start := start;
         slice_sweep := sweep;
         slice_large_arc := if dgt sweep 180 then 1%Z else 0%Z;
         slice_color := pie_colors !!! (i mod length pie_colors)%nat;
         slice_percent := cast_int ((v / total) * 100)%Q |}
      :: slices_from total (i + 1) (start + sweep)%Q values'
  end.

(** "Sweep starts at -90 degrees (12 o'clock)". *)
Definition slices `{StdLib} (values : list double) (total : double)
  : list Slice :=
  slices_from total 0 (-90)%Q values.

(** The arc path of a slice around the centre (400, 320) with radius
    180, with the sweep-direction flag spelled after the large-arc
    flag, and the percentage label on the bisecting angle. *)
Definition render_path `{StdLib} (s : Slice) : string :=
  let finish := (slice_start s + slice_sweep s)%Q in
  "<path d=" ++ dq ++ "M " ++ to_string 400%Q ++ " " ++ to_string 320%Q
  ++ " L " ++ to_string (400 + 180 * cos (slice_start s * M_PI / 180))%Q
  ++ " " ++ to_string (320 + 180 * sin (slice_start s * M_PI / 180))%Q
  ++ " A " ++ to_string 180%Q ++ " " ++ to_string 180%Q
  ++ " 0 " ++ to_string_int (slice_large_arc s) ++ " " ++ to_string_int 1
  ++ " " ++ to_string (400 + 180 * cos (finish * M_PI / 180))%Q
  ++ " " ++ to_string (320 + 180 * sin (finish * M_PI / 180))%Q
  ++ " Z" ++ dq ++ " fill=" ++ dq ++ slice_color s ++ dq ++ " stroke=" ++ dq
  ++ "white" ++ dq ++ " stroke-width=" ++ dq ++ "2" ++ dq ++ "/>" ++ nl.

Definition render_percent `{StdLib} (s : Slice) : string :=
  let labelAngle := (slice_start s + slice_sweep s / 2)%Q in
  "<text x=" ++ dq
  ++ to_string (400 + (180 * 0.7) * cos (labelAngle * M_PI / 180))%Q ++ dq
  ++ " y=" ++ dq
  ++ to_string (320 + (180 * 0.7) * sin (labelAngle * M_PI / 180))%Q ++ dq
  ++ " text-anchor=" ++ dq ++ "middle" ++ dq ++ " font-size=" ++ dq ++ "14"
  ++ dq ++ " fill=" ++ dq ++ "white" ++ dq ++ " font-weight=" ++ dq ++ "bold"
  ++ dq ++ ">" ++ to_string_int (slice_percent s) ++ "%</text>" ++ nl.

Definition render_slice `{StdLib} (s : Slice) : string :=
  render_path s ++ render_percent s.


(** Where the sweep ends: each value in turn adds its sweep. *)
Definition end_angle (total : double) (start : double) (values : list double)
  : double :=
  fold_left (fun a v => (a + (v / total) * 360)%Q) values start.

(** The head of the pie document: declaration, root, background and
    title. *)
Definition pie_frame (title : string) : string :=
  "<?xml version=" ++ dq ++ "1.0" ++ dq ++ " encoding=" ++ dq ++ "UTF-8" ++ dq
  ++ "?>" ++ nl ++ "<svg xmlns=" ++ dq ++ "http://www.w3.org/2000/svg" ++ dq
  ++ " width=" ++ dq ++ "800" ++ dq ++ " height=" ++ dq ++ "600" ++ dq ++ ">"
  ++ nl ++ "<rect width=" ++ dq ++ "100%" ++ dq ++ " height=" ++ dq ++ "100%"
  ++ dq ++ " fill=" ++ dq ++ "#ffffff" ++ dq ++ "/>" ++ nl ++ "<text x=" ++ dq
  ++ "400" ++ dq ++ " y=" ++ dq ++ "30" ++ dq ++ " text-anchor=" ++ dq
  ++ "middle" ++ dq ++ " font-size=" ++ dq ++ "20" ++ dq ++ " font-weight="
  ++ dq ++ "bold" ++ dq ++ ">" ++ title ++ "</text>" ++ nl.

(** The title of a pie: the second argument when it is a string. *)
Definition pie_title (rest : list NeutronValue) : string :=
  match rest with
  | NeutronString t :: _ => t
  | _ => "Pie Chart"
  end.

(** The document of a pie: the head, each slice in order with its
    label, the closing tag. *)
Definition pie_chart `{StdLib} (title : string) (values : list double)
  (total : double) : string :=
  pie_frame title ++ glue (map render_slice (slices values total))
  ++ "</svg>".

(** "canvas size minus padding on all sides": the width and the height
    of the padded interior, as numbers. *)
Definition innerWidth (cfg : GraphConfig.t) : double :=
  (inject_Z (GraphConfig.width cfg)
   - 2 * inject_Z (GraphConfig.padding cfg))%Q.
Definition innerHeight (cfg : GraphConfig.t) : double :=
  (inject_Z (GraphConfig.height cfg)
   - 2 * inject_Z (GraphConfig.padding cfg))%Q.

(** Two states of a graph with the same configuration and the same
    bounding box. *)
Definition same_box (g g' : SVGGraph.t) : Prop :=
  SVGGraph.config g' = SVGGraph.config g
  ∧ SVGGraph.minX g' = SVGGraph.minX g ∧ SVGGraph.maxX g' = SVGGraph.maxX g
  ∧ SVGGraph.minY g' = SVGGraph.minY g ∧ SVGGraph.maxY g' = SVGGraph.maxY g.

(** *** Vocabulary for the remaining code *)

(** "the minimum observed value": a member that exceeds no member. *)
Definition is_minimum (m : double) (vs : list double) : Prop :=
  m ∈ vs ∧ Forall (fun v => (m <= v)%Q) vs.

(** The configuration of a line, bar or scatter chart: the defaults,
    with the second argument as title when it is a string. *)
Definition chart_config (rest : list NeutronValue) : GraphConfig.t :=
  match rest with
  | NeutronString t :: _ => GraphConfig.set_title t GraphConfig.default
  | _ => GraphConfig.default
  end.

(** The end of every native that has a document: save it, launch the
    viewer when it was saved, report whether it was saved. *)
Definition sink (filename content : string) (w : World)
  : NeutronValue * World :=
  let '(success, w) := saveToFile filename content w in
  let w := if success then snd (openInBrowser filename w) else w in
  (neutron_new_boolean success, w).

(** The marks of a line chart and of a scatter plot for the point [p],
    scaled in the box of [g]: a vertex of the polyline, a marker of
    radius 4, a dot of radius 5. *)
Definition vertex `{StdLib} (g : SVGGraph.t) (p : Point.t) : string :=
  to_string (SVGGraph.scaleX g (Point.x p)) ++ ","
  ++ to_string (SVGGraph.scaleY g (Point.y p)) ++ " ".

Definition marker `{StdLib} (g : SVGGraph.t) (p : Point.t) : string :=
  "<circle cx=" ++ dq ++ to_string (SVGGraph.scaleX g (Point.x p)) ++ dq
  ++ " cy=" ++ dq ++ to_string (SVGGraph.scaleY g (Point.y p)) ++ dq ++ " r="
  ++ dq ++ "4" ++ dq ++ " fill=" ++ dq
  ++ GraphConfig.color (SVGGraph.config g) ++ dq ++ "/>" ++ nl.

Definition dot `{StdLib} (g : SVGGraph.t) (p : Point.t) : string :=
  "<circle cx=" ++ dq ++ to_string (SVGGraph.scaleX g (Point.x p)) ++ dq
  ++ " cy=" ++ dq ++ to_string (SVGGraph.scaleY g (Point.y p)) ++ dq ++ " r="
  ++ dq ++ "5" ++ dq ++ " fill=" ++ dq
  ++ GraphConfig.color (SVGGraph.config g) ++ dq ++ " opacity=" ++ dq ++ "0.7"
  ++ dq ++ "/>" ++ nl.

(** The first line of every document. *)
Definition xml_declaration : string :=
  "<?xml version=" ++ dq ++ "1.0" ++ dq ++ " encoding=" ++ dq ++ "UTF-8" ++ dq
  ++ "?>" ++ nl.

(** The positions of the eleven grid lines along an axis of [extent]
    pixels that begins at [origin]. *)
Definition grid_positions (origin extent : Z) : list Z :=
  map (fun i => (origin + idiv (extent * i) 10)%Z) (seqZ 0 11).

Definition vertical_line (cfg : GraphConfig.t) (x : Z) : string :=
  "<line x1=" ++ dq ++ to_string_int x ++ dq ++ " y1=" ++ dq
  ++ to_string_int (GraphConfig.padding cfg) ++ dq ++ " x2=" ++ dq
  ++ to_string_int x ++ dq ++ " y2=" ++ dq
  ++ to_string_int (GraphConfig.height cfg - GraphConfig.padding cfg) ++ dq
  ++ "/>" ++ nl.

Definition horizontal_line (cfg : GraphConfig.t) (y : Z) : string :=
  "<line x1=" ++ dq ++ to_string_int (GraphConfig.padding cfg) ++ dq ++ " y1="
  ++ dq ++ to_string_int y ++ dq ++ " x2=" ++ dq
  ++ to_string_int (GraphConfig.width cfg - GraphConfig.padding cfg) ++ dq
  ++ " y2=" ++ dq ++ to_string_int y ++ dq ++ "/>" ++ nl.

(** One string is the beginning, or the end, of another. *)
Definition starts_with (prefix s : string) : Prop :=
  ∃ rest, s = prefix ++ rest.
Definition ends_with (suffix s : string) : Prop :=
  ∃ front, s = front ++ suffix.

(** The root element of a document on a canvas of the given size, and
    what makes a string a document of that size: it begins with the
    declaration and the root, and ends with the closing tag. *)
Definition svg_root (width height : Z) : string :=
  "<svg xmlns=" ++ dq ++ "http://www.w3.org/2000/svg" ++ dq ++ " width=" ++ dq
  ++ to_string_int width ++ dq ++ " height=" ++ dq ++ to_string_int height
  ++ dq ++ ">" ++ nl.

Definition is_document (width height : Z) (doc : string) : Prop :=
  starts_with (xml_declaration ++ svg_root width height) doc
  ∧ ends_with "</svg>" doc.

(** What a native that writes the file [name] may have done to the
    machine [w]: nothing, reporting false; or stored a document of 800
    by 600 under [name] and launched the viewer on it, reporting
    true. *)
Definition reports (name : string) (w : World) (r : NeutronValue * World)
  : Prop :=
  r = (neutron_new_boolean false, w)
  ∨ ∃ doc, is_document 800 600 doc
           ∧ r = (neutron_new_boolean true,
                  mkWorld (<[name := doc]> (files w)) (can_open w)
                    (system_status w)
                    (launched w ++ [String.append "xdg-open " name])%list).

(** The box of [g] is the range of the points, widened on both ends of
    each axis by 5% of the range. *)
Definition is_padded_range (points : list Point.t) (g : SVGGraph.t) : Prop :=
  ∃ xlo xhi ylo yhi,
    is_minimum xlo (map Point.x points)
    ∧ is_maximum xhi (map Point.x points)
    ∧ is_minimum ylo (map Point.y points)
    ∧ is_maximum yhi (map Point.y points)
    ∧ SVGGraph.minX g = (xlo - (xhi - xlo) * 0.05)%Q
    ∧ SVGGraph.maxX g = (xhi + (xhi - xlo) * 0.05)%Q
    ∧ SVGGraph.minY g = (ylo - (yhi - ylo) * 0.05)%Q
    ∧ SVGGraph.maxY g = (yhi + (yhi - ylo) * 0.05)%Q.


End Spec.

(** * Properties *)

#[local] Open Scope Q_scope.
#[local] Open Scope list_scope.

(** ** Strings and streams *)

Lemma substring_none (s : string) : String.substring 0 0 s = EmptyString.
Proof. destruct s; reflexivity. Qed.

Lemma substring_all (s : string) :
  String.substring 0 (String.length s) s = s.
Proof. induction s as [|a s IH]; simpl; [reflexivity | now rewrite IH]. Qed.

Lemma append_cons (a : ascii) (s t : string) :
  (String a s ++ t)%string = String a (s ++ t).
Proof. reflexivity. Qed.

Lemma append_empty_r (s : string) : (s ++ EmptyString)%string = s.
Proof.
  induction s as [|a s IH]; [reflexivity | now rewrite append_cons, IH].
Qed.

Lemma append_assoc (a b c : string) :
  ((a ++ b) ++ c)%string = (a ++ (b ++ c))%string.
Proof.
  induction a as [|x a IH]; [reflexivity | now rewrite !append_cons, IH].
Qed.

(** The halves that [find] and [substr] produce are those of [cut]. *)
Lemma cut_find (c : ascii) (s : string) :
  Spec.cut c s =
  match str_find c s with
  | Some i => Some (substr 0 i s, substr_from (i + 1) s)
  | None => None
  end.
Proof.
  induction s as [|a s IH]; simpl; [reflexivity|].
  destruct (Ascii.eqb a c).
  - unfold substr_from, substr. simpl.
    now rewrite Nat.sub_0_r, substring_all.
  - rewrite IH. destruct (str_find c s) as [i|]; simpl; reflexivity.
Qed.

(** [cut] splits at a delimiter that the left half does not contain. *)
Lemma cut_spec (c : ascii) (s l r : string) :
  Spec.cut c s = Some (l, r) ↔
  s = (l ++ String c r)%string ∧ str_find c l = None.
Proof.
  revert l r. induction s as [|a s IH]; intros l r; simpl.
  - split; [discriminate|]. intros [E _]. destruct l; discriminate.
  - destruct (Ascii.eqb a c) eqn:Eac.
    + apply Ascii.eqb_eq in Eac. subst a. split.
      * intros [= <- <-]. split; reflexivity.
      * intros [E F]. destruct l as [|b l]; simpl in *.
        -- now injection E as ->.
        -- rewrite append_cons in E. injection E as <- _.
           rewrite Ascii.eqb_refl in F. discriminate.
    + split.
      * destruct (Spec.cut c s) as [[l' r']|] eqn:Ec; [|discriminate].
        intros [= <- <-]. destruct (proj1 (IH l' r') eq_refl) as [-> F].
        split; [reflexivity|]. simpl. now rewrite Eac, F.
      * intros [E F]. destruct l as [|b l]; simpl in *.
        -- injection E as -> _. rewrite Ascii.eqb_refl in Eac. discriminate.
        -- rewrite append_cons in E. injection E as <- ->. rewrite Eac in F.
           destruct (str_find c l) eqn:Fl; [discriminate|].
           now rewrite (proj2 (IH l r) (conj eq_refl Fl)).
Qed.

Lemma getline_shorter (d : ascii) (s item rest : string) :
  getline d s = Some (item, rest) →
  (String.length rest < String.length s)%nat.
Proof.
  destruct s as [|a s]; [discriminate|]. unfold getline.
  intros [= E]. revert a item rest E.
  induction s as [|b s IH]; intros a item rest; simpl.
  - destruct (Ascii.eqb a d); intros [= <- <-]; simpl; lia.
  - destruct (Ascii.eqb a d); [intros [= <- <-]; simpl; lia|].
    destruct (Ascii.eqb b d) eqn:Ebd.
    + intros [= <- <-]. simpl. lia.
    + specialize (IH b). simpl in IH. rewrite Ebd in IH.
      destruct (getline_scan d s) as [item' rest'].
      intros [= <- <-]. specialize (IH _ _ eq_refl). lia.
Qed.

(** What [getline] extracts is the first segment; what it leaves holds
    the other segments, unless the delimiter was never met. *)
Lemma split_on_getline_scan (d : ascii) (s item rest : string) :
  getline_scan d s = (item, rest) →
  Spec.split_on d s = item :: Spec.split_on d rest
  ∨ (Spec.split_on d s = [item] ∧ rest = EmptyString).
Proof.
  revert item rest. induction s as [|a s IH]; intros item rest; simpl.
  - intros [= <- <-]. now right.
  - destruct (Ascii.eqb a d); [intros [= <- <-]; now left|].
    destruct (getline_scan d s) as [item' rest'].
    intros [= <- <-].
    destruct (IH _ _ eq_refl) as [-> | [-> ->]]; [now left | now right].
Qed.

Lemma omap_split_on_getline {A : Type} (f : string → option A)
  (d : ascii) (s item rest : string) :
  f EmptyString = None →
  getline d s = Some (item, rest) →
  omap f (Spec.split_on d s) = omap f [item] ++ omap f (Spec.split_on d rest).
Proof.
  intros Hf. destruct s as [|a s]; [discriminate|]. unfold getline.
  intros E.
  assert (E' : getline_scan d (String a s) = (item, rest)) by congruence.
  destruct (split_on_getline_scan _ _ _ _ E') as [-> | [-> ->]].
  - simpl. destruct (f item); reflexivity.
  - simpl. rewrite Hf. now rewrite app_nil_r.
Qed.

(** ** The value parsers *)

Section ParserFacts.
Context `{StdLib}.
Import graphs.

Lemma point_of_segment_empty : Spec.point_of_segment EmptyString = None.
Proof. reflexivity. Qed.

Lemma parsePoints_body_spec (pair_s : string) (points : list Point.t) :
  parsePoints_body pair_s points
  = points ++ omap Spec.point_of_segment [pair_s].
Proof.
  unfold parsePoints_body. simpl. unfold Spec.point_of_segment.
  rewrite cut_find.
  destruct (str_find ":" pair_s) as [colon|]; simpl;
    [|now rewrite app_nil_r].
  destruct (stod (substr 0 colon pair_s)); simpl; [|now rewrite app_nil_r].
  destruct (stod (substr_from (colon + 1) pair_s)); simpl;
    [reflexivity | now rewrite app_nil_r].
Qed.

(** With enough fuel the loop of [parseCSV] reaches the end of the
    stream, having converted the segments in order. *)
Lemma parseCSV_loop_spec (fuel : nat) (ss : string) (values : list double) :
  (String.length ss < fuel)%nat →
  parseCSV_loop fuel ss values = values ++ omap stod (Spec.split_on "," ss).
Proof.
  revert ss values. induction fuel as [|fuel IH]; intros ss values Hf; [lia|].
  simpl. destruct (getline "," ss) as [[item ss']|] eqn:Eg.
  - pose proof (getline_shorter _ _ _ _ Eg) as Hlt.
    rewrite (omap_split_on_getline stod _ _ _ _ stod_empty Eg). simpl.
    destruct (stod item) as [v|]; rewrite IH by lia.
    + now rewrite <- app_assoc.
    + reflexivity.
  - destruct ss; [|discriminate]. simpl. rewrite stod_empty.
    now rewrite app_nil_r.
Qed.

Lemma parsePoints_loop_spec (fuel : nat) (ss : string)
  (points : list Point.t) :
  (String.length ss < fuel)%nat →
  parsePoints_loop fuel ss points
  = points ++ omap Spec.point_of_segment (Spec.split_on "," ss).
Proof.
  revert ss points. induction fuel as [|fuel IH]; intros ss points Hf; [lia|].
  simpl. destruct (getline "," ss) as [[item ss']|] eqn:Eg.
  - pose proof (getline_shorter _ _ _ _ Eg) as Hlt.
    rewrite (omap_split_on_getline Spec.point_of_segment _ _ _ _
               point_of_segment_empty Eg).
    rewrite IH by lia. rewrite parsePoints_body_spec.
    now rewrite <- app_assoc.
  - destruct ss; [|discriminate]. simpl. now rewrite app_nil_r.
Qed.

Lemma parseCSV_spec (s : string) :
  parseCSV s = omap stod (Spec.split_on "," s).
Proof. unfold parseCSV. now rewrite parseCSV_loop_spec by lia. Qed.

Lemma parsePoints_spec (s : string) :
  parsePoints s = omap Spec.point_of_segment (Spec.split_on "," s).
Proof. unfold parsePoints. now rewrite parsePoints_loop_spec by lia. Qed.

End ParserFacts.

(** [std::stod] reads the longest numeric prefix of a segment, after
    leading white space: such segments convert and are kept. *)
Example parseCSV_numeric_prefix :
  @graphs.parseCSV Reference.lib " 7,1abc,,-2.5e1,e3" = [7; 1; -25].
Proof. vm_compute; reflexivity. Qed.

(** C3.  For every input string, [parseCSV] (the specification's
    [parseValues]) splits on [,], drops every segment that [std::stod]
    does not convert, neither filling in a zero nor raising an error,
    and returns the converted numbers in input order, duplicates
    included.  In particular "1,a,3" yields [1, 3]. *)
Theorem parseCSV_omits_non_numeric :
  (∀ (L : StdLib) (s : string),
     graphs.parseCSV s = omap stod (Spec.split_on "," s))
  ∧ @graphs.parseCSV Reference.lib "1,a,3" = [1; 3].
Proof.
  split; [intros L s; apply parseCSV_spec | vm_compute; reflexivity].
Qed.

(** C2.  For every input string, [parsePoints] (the specification's
    [parsePairs]) splits on [,] and produces exactly one point for each
    segment that holds a [:] and whose substrings left and right of the
    first [:] both convert; a segment without [:] or with a half that
    does not convert is dropped whole; the points come in input order.
    In particular "1:2,x:9,3:4" yields [(1,2), (3,4)]. *)
Theorem parsePoints_one_point_per_valid_segment :
  (∀ (L : StdLib) (s : string),
     graphs.parsePoints s
     = omap Spec.point_of_segment (Spec.split_on "," s))
  ∧ @graphs.parsePoints Reference.lib "1:2,x:9,3:4"
    = [graphs.Point.mk 1 2; graphs.Point.mk 3 4].
Proof.
  split; [intros L s; apply parsePoints_spec | vm_compute; reflexivity].
Qed.

(** ** Failure without a document *)

Section NativeFacts.
Context `{StdLib}.
Import graphs.

Lemma graphs_line_empty (data : string) (rest : list NeutronValue) (w : World) :
  parsePoints data = [] →
  graphs_line (NeutronString data :: rest) w = (neutron_new_boolean false, w).
Proof. intros E. unfold graphs_line. simpl. now rewrite E. Qed.

Lemma graphs_scatter_empty (data : string) (rest : list NeutronValue)
  (w : World) :
  parsePoints data = [] →
  graphs_scatter (NeutronString data :: rest) w
  = (neutron_new_boolean false, w).
Proof. intros E. unfold graphs_scatter. simpl. now rewrite E. Qed.

Lemma graphs_bar_empty (data : string) (rest : list NeutronValue) (w : World) :
  bar_points data = [] →
  graphs_bar (NeutronString data :: rest) w = (neutron_new_boolean false, w).
Proof. intros E. unfold graphs_bar. simpl. now rewrite E. Qed.

Lemma graphs_pie_empty (data : string) (rest : list NeutronValue) (w : World) :
  parseCSV data = [] →
  graphs_pie (NeutronString data :: rest) w = (neutron_new_boolean false, w).
Proof. intros E. unfold graphs_pie. simpl. now rewrite E. Qed.

Lemma graphs_pie_zero (data : string) (rest : list NeutronValue) (w : World) :
  pie_total (parseCSV data) == 0 →
  graphs_pie (NeutronString data :: rest) w = (neutron_new_boolean false, w).
Proof.
  intros E. unfold graphs_pie. simpl.
  destruct (empty (parseCSV data)); [reflexivity|].
  unfold deq. apply Qeq_bool_iff in E. now rewrite E.
Qed.

End NativeFacts.

(** C4.  For every input string whose parse yields no point or no
    value, each of the four exported functions returns false and leaves
    the machine as it was: no file is written, no command is run. *)
Theorem empty_parse_fails_without_write :
  ∀ (L : StdLib) (data : string) (rest : list NeutronValue) (w : World),
    (graphs.parsePoints data = [] →
     graphs_line (NeutronString data :: rest) w
     = (neutron_new_boolean false, w))
    ∧ (bar_points data = [] →
       graphs_bar (NeutronString data :: rest) w
       = (neutron_new_boolean false, w))
    ∧ (graphs.parsePoints data = [] →
       graphs_scatter (NeutronString data :: rest) w
       = (neutron_new_boolean false, w))
    ∧ (graphs.parseCSV data = [] →
       graphs_pie (NeutronString data :: rest) w
       = (neutron_new_boolean false, w)).
Proof.
  intros L data rest w. repeat split.
  - apply graphs_line_empty.
  - apply graphs_bar_empty.
  - apply graphs_scatter_empty.
  - apply graphs_pie_empty.
Qed.

(** The garbage input "x,7y:,:" parses to nothing in either form, and
    all four functions fail on it without touching the machine. *)
Lemma empty_parse_fails_without_write_witness :
  @graphs.parsePoints Reference.lib "x,7y:,:" = []
  ∧ @bar_points Reference.lib "x,7y:,:" = []
  ∧ @graphs.parseCSV Reference.lib "x,y:,:" = []
  ∧ @graphs_line Reference.lib [NeutronString "x,7y:,:"] fresh_world
    = (neutron_new_boolean false, fresh_world)
  ∧ @graphs_bar Reference.lib [NeutronString "x,7y:,:"] fresh_world
    = (neutron_new_boolean false, fresh_world)
  ∧ @graphs_scatter Reference.lib [NeutronString "x,7y:,:"] fresh_world
    = (neutron_new_boolean false, fresh_world)
  ∧ @graphs_pie Reference.lib [NeutronString "x,y:,:"] fresh_world
    = (neutron_new_boolean false, fresh_world).
Proof.
  destruct (empty_parse_fails_without_write Reference.lib "x,7y:,:" []
              fresh_world) as (Hline & Hbar & Hscatter & _).
  destruct (empty_parse_fails_without_write Reference.lib "x,y:,:" []
              fresh_world) as (_ & _ & _ & Hpie).
  split_and!.
  - vm_compute; reflexivity.
  - vm_compute; reflexivity.
  - vm_compute; reflexivity.
  - apply Hline. vm_compute; reflexivity.
  - apply Hbar. vm_compute; reflexivity.
  - apply Hscatter. vm_compute; reflexivity.
  - apply Hpie. vm_compute; reflexivity.
Defined.




(** ** The scaler *)

Lemma dlt_true (a b : double) : dlt a b = true ↔ a < b.
Proof.
  unfold dlt. rewrite negb_true_iff. split.
  - intros E. apply Qnot_le_lt. intros Hle.
    apply Qle_bool_iff in Hle. congruence.
  - intros Hlt. destruct (Qle_bool b a) eqn:E; [|reflexivity].
    apply Qle_bool_iff in E. lra.
Qed.

Lemma dlt_false (a b : double) : dlt a b = false ↔ b <= a.
Proof.
  unfold dlt. rewrite negb_false_iff. apply Qle_bool_iff.
Qed.

Lemma std_min_case (a b : double) :
  (std_min a b = a ∧ a <= b) ∨ (std_min a b = b ∧ b < a).
Proof.
  unfold std_min. destruct (dlt b a) eqn:E.
  - right. split; [reflexivity | now apply dlt_true].
  - left. split; [reflexivity | now apply dlt_false].
Qed.

Lemma std_max_case (a b : double) :
  (std_max a b = a ∧ b <= a) ∨ (std_max a b = b ∧ a < b).
Proof.
  unfold std_max. destruct (dlt a b) eqn:E.
  - right. split; [reflexivity | now apply dlt_true].
  - left. split; [reflexivity | now apply dlt_false].
Qed.

Import graphs graphs.SVGGraph Spec.

Lemma of_int_inner_width (cfg : GraphConfig.t) :
  of_int (GraphConfig.width cfg - 2 * GraphConfig.padding cfg)
  == innerWidth cfg.
Proof.
  unfold of_int, innerWidth, Z.sub.
  rewrite inject_Z_plus, inject_Z_opp, inject_Z_mult. ring.
Qed.





(** The bounds loop encloses every point and the box it started from. *)
Lemma find_bounds_encloses (points : list Point.t) (g : SVGGraph.t) :
  let g' := find_bounds points g in
  config g' = config g
  ∧ minX g' <= minX g ∧ maxX g <= maxX g'
  ∧ ∀ p, p ∈ points → minX g' <= Point.x p ∧ Point.x p <= maxX g'.
Proof.
  revert g. induction points as [|q points IH]; intros g; simpl.
  - split_and!; [reflexivity | lra | lra |]. intros p Hp. inversion Hp.
  - match goal with |- context [find_bounds points ?g1] =>
      destruct (IH g1) as (Hc & Hlo & Hhi & Hin) end.
    simpl in Hc, Hlo, Hhi.
    destruct (std_min_case (minX g) (Point.x q)) as [[Em ?]|[Em ?]];
      destruct (std_max_case (maxX g) (Point.x q)) as [[EM ?]|[EM ?]];
      rewrite Em in *; rewrite EM in *;
      (split_and!; [exact Hc | lra | lra |]);
      intros p Hp; apply elem_of_cons in Hp as [->|Hp];
      try (apply Hin; exact Hp); lra.
Qed.

(** Drawing leaves the configuration and the box alone. *)
Lemma same_box_refl (g : SVGGraph.t) : same_box g g.
Proof. now repeat split. Qed.

Lemma same_box_trans (g1 g2 g3 : SVGGraph.t) :
  same_box g1 g2 → same_box g2 g3 → same_box g1 g3.
Proof. unfold same_box. intuition congruence. Qed.

Lemma same_box_set_svg (s : string) (g : SVGGraph.t) :
  same_box g (set_svg s g).
Proof. now repeat split. Qed.

Lemma same_box_fold {A : Type} (step : SVGGraph.t → A → SVGGraph.t)
  (l : list A) (g : SVGGraph.t) :
  (∀ g a, same_box g (step g a)) → same_box g (fold_left step l g).
Proof.
  intros Hstep. revert g. induction l as [|a l IH]; intros g; simpl.
  - apply same_box_refl.
  - eapply same_box_trans; [apply Hstep | apply IH].
Qed.

Lemma same_box_init (g : SVGGraph.t) : same_box g (init g).
Proof. now repeat split. Qed.

(** A chain of drawing steps is undone from the last step backwards. *)
Ltac box_step :=
  first [ apply same_box_set_svg
        | apply same_box_fold; intros; apply same_box_set_svg ].
Ltac box_chain step :=
  repeat (eapply same_box_trans; [|step]); apply same_box_refl.

Lemma same_box_drawGrid (g : SVGGraph.t) : same_box g (drawGrid g).
Proof.
  unfold drawGrid. destruct (negb _); [apply same_box_refl|].
  box_chain box_step.
Qed.

Lemma same_box_drawAxes (g : SVGGraph.t) : same_box g (drawAxes g).
Proof. now repeat split. Qed.

Lemma same_box_drawLabels (g : SVGGraph.t) : same_box g (drawLabels g).
Proof. now repeat split. Qed.

Lemma same_box_skeleton (g : SVGGraph.t) :
  same_box g (drawLabels (drawAxes (drawGrid (init g)))).
Proof.
  eapply same_box_trans; [apply same_box_init|].
  eapply same_box_trans; [apply same_box_drawGrid|].
  eapply same_box_trans; [apply same_box_drawAxes|].
  apply same_box_drawLabels.
Qed.

Lemma same_box_append (s : string) (g : SVGGraph.t) :
  same_box g (append s g).
Proof. now repeat split. Qed.

Ltac draw_step :=
  idtac;
  lazymatch goal with
  | |- same_box _ (append _ _) => apply same_box_append
  | |- same_box _ (fold_left _ _ _) =>
      apply same_box_fold; intros; apply same_box_append
  | |- same_box _ (drawLabels _) => apply same_box_skeleton
  end.


Section Charts.
Context `{StdLib}.

Lemma same_box_lineChart (p0 : Point.t) (points : list Point.t)
  (g : SVGGraph.t) :
  same_box
    (pad_bounds
       (find_bounds (p0 :: points)
          (set_minY (Point.y p0)
             (set_maxY (Point.y p0)
                (set_minX (Point.x p0) (set_maxX (Point.x p0) g))))))
    (lineChart (p0 :: points) g).
Proof.
  unfold lineChart. box_chain draw_step.
Qed.

Lemma same_box_scatterPlot (p0 : Point.t) (points : list Point.t)
  (g : SVGGraph.t) :
  same_box
    (pad_bounds
       (find_bounds (p0 :: points)
          (set_minY (Point.y p0)
             (set_maxY (Point.y p0)
                (set_minX (Point.x p0) (set_maxX (Point.x p0) g))))))
    (scatterPlot (p0 :: points) g).
Proof.
  unfold scatterPlot. box_chain draw_step.
Qed.


End Charts.



(** ** Loops *)

Lemma for_size_fold {St : Type} (fuel i n : nat) (body : nat → St → St)
  (s : St) :
  (n - i <= fuel)%nat →
  graphs.for_size fuel i n body s
  = fold_left (fun s k => body k s) (seq i (n - i)) s.
Proof.
  revert i s. induction fuel as [|fuel IH]; intros i s Hf; simpl.
  - now replace (n - i)%nat with 0%nat by lia.
  - destruct (Nat.ltb_spec i n) as [Hlt|Hge].
    + rewrite IH by lia.
      replace (n - i)%nat with (S (n - (i + 1))) by lia.
      simpl. now rewrite Nat.add_1_r.
    + now replace (n - i)%nat with 0%nat by lia.
Qed.

Lemma append_nothing (g : SVGGraph.t) : append EmptyString g = g.
Proof.
  destruct g. unfold append, set_svg. simpl. now rewrite append_empty_r.
Qed.

Lemma append_append (s1 s2 : string) (g : SVGGraph.t) :
  append s2 (append s1 g) = append (s1 +:+ s2) g.
Proof. unfold append, set_svg. simpl. now rewrite append_assoc. Qed.

Lemma glue_cons (s : string) (l : list string) :
  glue (s :: l) = s +:+ glue l.
Proof. reflexivity. Qed.

(** A loop that appends a piece per element appends their glue. *)
Lemma fold_append {A : Type} (piece : A → string) (l : list A)
  (g : SVGGraph.t) :
  fold_left (fun g a => append (piece a) g) l g
  = append (glue (map piece l)) g.
Proof.
  revert g. induction l as [|a l IH]; intros g; simpl.
  - now rewrite append_nothing.
  - now rewrite IH, append_append.
Qed.

(** The frame depends on the configuration alone. *)
Lemma skeleton_svg (g : SVGGraph.t) :
  svg (drawLabels (drawAxes (drawGrid (init g)))) = frame (config g).
Proof.
  unfold frame.
  assert (Hg : ∀ g1 g2, config g1 = config g2 → svg g1 = svg g2 →
               config (drawGrid g1) = config (drawGrid g2)
               ∧ svg (drawGrid g1) = svg (drawGrid g2)).
  { intros g1 g2 Ec Es. unfold drawGrid. rewrite <- Ec.
    destruct (negb _); [now split|].
    rewrite !fold_append. simpl. rewrite Ec, Es. now split. }
  assert (Ha : ∀ g1 g2, config g1 = config g2 → svg g1 = svg g2 →
               config (drawAxes g1) = config (drawAxes g2)
               ∧ svg (drawAxes g1) = svg (drawAxes g2)).
  { intros g1 g2 Ec Es. unfold drawAxes. simpl. rewrite Ec, Es. now split. }
  assert (Hl : ∀ g1 g2, config g1 = config g2 → svg g1 = svg g2 →
               svg (drawLabels g1) = svg (drawLabels g2)).
  { intros g1 g2 Ec Es. unfold drawLabels. simpl. now rewrite Ec, Es. }
  destruct (Hg (init g) (init (new (config g))) eq_refl eq_refl) as [Ec Es].
  destruct (Ha _ _ Ec Es) as [Ec' Es']. exact (Hl _ _ Ec' Es').
Qed.


(** ** The bar chart *)

Section BarFacts.
Context `{StdLib}.

Lemma barChart_body_spec (cfg : GraphConfig.t) (points : list Point.t)
  (i : nat) (g : SVGGraph.t) :
  config g = cfg →
  barChart_body points
    (GraphConfig.width cfg - 2 * GraphConfig.padding cfg)%Z
    (of_int (GraphConfig.width cfg - 2 * GraphConfig.padding cfg)
     / (of_size (length points) * 1.5)) i g
  = append (render_bar cfg
              (bar cfg (length points) (minY g) (maxY g) i
                 (Point.y (points !!! i)))) g.
Proof.
  intros <-. unfold barChart_body. rewrite append_append. reflexivity.
Qed.

Lemma bar_loop_spec (cfg : GraphConfig.t) (l1 l2 : list Point.t)
  (g : SVGGraph.t) :
  config g = cfg →
  fold_left
    (fun g k =>
       barChart_body (l1 ++ l2)
         (GraphConfig.width cfg - 2 * GraphConfig.padding cfg)%Z
         (of_int (GraphConfig.width cfg - 2 * GraphConfig.padding cfg)
          / (of_size (length (l1 ++ l2)) * 1.5)) k g)
    (seq (length l1) (length l2)) g
  = append
      (glue (imap (fun i p =>
                     render_bar cfg
                       (bar cfg (length (l1 ++ l2)) (minY g) (maxY g)
                          (length l1 + i) (Point.y p))) l2)) g.
Proof.
  intros Hc. revert l1 g Hc. induction l2 as [|p l2 IH]; intros l1 g Hc.
  - simpl. now rewrite append_nothing.
  - cbn [length seq fold_left]. rewrite barChart_body_spec by exact Hc.
    rewrite list_lookup_total_middle by reflexivity.
    replace (l1 ++ p :: l2) with ((l1 ++ [p]) ++ l2)
      by now rewrite <- app_assoc.
    replace (S (length l1)) with (length (l1 ++ [p]))
      by (rewrite length_app; simpl; lia).
    rewrite IH by exact Hc. rewrite append_append. f_equal.
    rewrite imap_cons, glue_cons, Nat.add_0_r. do 2 f_equal.
    apply imap_ext. intros i q _. simpl.
    do 2 f_equal. rewrite length_app. simpl. lia.
Qed.

Lemma set_maxY_fold (points : list Point.t) (g : SVGGraph.t) :
  fold_left (fun g p => set_maxY (std_max (maxY g) (Point.y p)) g) points g
  = set_maxY (fold_left std_max (map Point.y points) (maxY g)) g.
Proof.
  revert g. induction points as [|p points IH]; intros g; simpl.
  - now destruct g.
  - now rewrite IH.
Qed.

(** The bar chart of a non-empty list, with its loops resolved: the box
    is set, the frame is drawn, the bars are appended in order. *)
Lemma barChart_resolved (points : list Point.t) (g : SVGGraph.t) :
  points ≠ [] →
  barChart points g
  = append "</svg>"
      (append
         (glue (map (render_bar (config g))
                  (bars (config g) (map Point.y points))))
         (drawLabels (drawAxes (drawGrid (init
            (set_maxY (highest (map Point.y points) * 1.1)
               (set_minY 0
                  (set_maxX (of_size (length points))
                     (set_minX 0 g))))))))).
Proof.
  intros Hne. destruct points as [|p0 rest]; [congruence|].
  unfold barChart. set (points := p0 :: rest).
  rewrite set_maxY_fold.
  set (gB := set_maxY (highest (map Point.y points) * 1.1)
               (set_minY 0
                  (set_maxX (of_size (length points)) (set_minX 0 g)))).
  repeat match goal with
         | |- context [init ?a] =>
             lazymatch a with
             | gB => fail
             | _ => change a with gB
             end
         end.
  set (gS := drawLabels (drawAxes (drawGrid (init gB)))).
  assert (Hbox : same_box gB gS) by apply same_box_skeleton.
  destruct Hbox as (Ec & _ & _ & Em & EM).
  f_equal. rewrite for_size_fold by lia. rewrite Nat.sub_0_r.
  pose proof (bar_loop_spec (config gS) [] points gS eq_refl) as Hloop.
  change ([] ++ points) with points in Hloop.
  change (length (@nil Point.t)) with 0%nat in Hloop.
  rewrite Hloop. rewrite Ec, Em, EM. do 2 f_equal.
  unfold bars. rewrite fmap_imap, imap_fmap, length_map.
  apply imap_ext. intros i p _. reflexivity.
Qed.



Lemma barChart_equal_values (points1 points2 : list Point.t)
  (g : SVGGraph.t) :
  map Point.y points1 = map Point.y points2 →
  barChart points1 g = barChart points2 g.
Proof.
  intros E. destruct points1 as [|p1 rest1].
  - destruct points2; [reflexivity | discriminate].
  - destruct points2 as [|p2 rest2]; [discriminate|].
    rewrite !barChart_resolved by discriminate. rewrite E.
    assert (El : length (p1 :: rest1) = length (p2 :: rest2))
      by (rewrite <- (length_map Point.y (p1 :: rest1)), E;
          apply length_map).
    now rewrite El.
Qed.

Lemma barChart_document (cfg : GraphConfig.t) (points : list Point.t) :
  points ≠ [] →
  svg (barChart points (new cfg)) = bar_chart cfg (map Point.y points).
Proof.
  intros Hne. rewrite barChart_resolved by exact Hne.
  unfold bar_chart. cbn [append set_svg svg].
  rewrite skeleton_svg. now rewrite append_assoc.
Qed.

Lemma graphs_bar_equal_values (data1 data2 : string)
  (rest : list NeutronValue) (w : World) :
  map Point.y (bar_points data1) = map Point.y (bar_points data2) →
  graphs_bar (NeutronString data1 :: rest) w
  = graphs_bar (NeutronString data2 :: rest) w.
Proof.
  intros E. unfold graphs_bar. simpl.
  rewrite (barChart_equal_values _ _ _ E).
  destruct (bar_points data1) as [|p1 l1], (bar_points data2) as [|p2 l2];
    try discriminate; reflexivity.
Qed.

Lemma bar_points_pairs (data : string) :
  str_find ":" data ≠ None → bar_points data = parsePoints data.
Proof. unfold bar_points. now destruct (str_find ":" data). Qed.

End BarFacts.

Lemma fold_std_max (vs : list double) (a : double) :
  let r := fold_left std_max vs a in
  (r = a ∨ r ∈ vs) ∧ a <= r ∧ Forall (fun v => v <= r) vs.
Proof.
  revert a. induction vs as [|v vs IH]; intros a; simpl.
  - split_and!; [now left | lra | constructor].
  - destruct (IH (std_max a v)) as (Hin & Hle & Hall).
    destruct (std_max_case a v) as [[E Hva]|[E Hav]]; rewrite E in *.
    + split_and!.
      * destruct Hin as [->|Hin]; [now left | right; now constructor].
      * exact Hle.
      * constructor; [lra | exact Hall].
    + split_and!.
      * right. destruct Hin as [->|Hin]; [constructor | now constructor].
      * lra.
      * constructor; [exact Hle | exact Hall].
Qed.








(** C10.  The bar chart's document depends only on the sequence of y
    values, never on the x coordinates: two point sequences with the
    same y values in the same order give the same chart, and two inputs
    to [graphs_bar] whose points have the same y values in the same
    order, the pair form included, give the same result and the same
    file.  So do "1:45,2:67" and "10:45,99:67". *)
Theorem bar_ignores_x :
  (∀ (L : StdLib) (points1 points2 : list Point.t) (g : SVGGraph.t),
     map Point.y points1 = map Point.y points2 →
     SVGGraph.barChart points1 g = SVGGraph.barChart points2 g)
  ∧ (∀ (L : StdLib) (data1 data2 : string) (rest : list NeutronValue)
       (w : World),
       map Point.y (bar_points data1) = map Point.y (bar_points data2) →
       graphs_bar (NeutronString data1 :: rest) w
       = graphs_bar (NeutronString data2 :: rest) w)
  ∧ (∀ (L : StdLib) (data1 data2 : string) (rest : list NeutronValue)
       (w : World),
       str_find ":" data1 ≠ None → str_find ":" data2 ≠ None →
       map Point.y (parsePoints data1) = map Point.y (parsePoints data2) →
       graphs_bar (NeutronString data1 :: rest) w
       = graphs_bar (NeutronString data2 :: rest) w)
  ∧ @graphs_bar Reference.lib [NeutronString "1:45,2:67"] fresh_world
    = @graphs_bar Reference.lib [NeutronString "10:45,99:67"] fresh_world.
Proof.
  split_and!.
  - intros L points1 points2 g E. now apply barChart_equal_values.
  - intros L data1 data2 rest w E. now apply graphs_bar_equal_values.
  - intros L data1 data2 rest w H1 H2 E. apply graphs_bar_equal_values.
    now rewrite !bar_points_pairs.
  - apply graphs_bar_equal_values. vm_compute. reflexivity.
Qed.

Lemma bar_ignores_x_witness :
  str_find ":" "1:45,2:67" ≠ None
  ∧ str_find ":" "10:45,99:67" ≠ None
  ∧ map Point.y (@parsePoints Reference.lib "1:45,2:67")
    = map Point.y (@parsePoints Reference.lib "10:45,99:67")
  ∧ @graphs_bar Reference.lib [NeutronString "1:45,2:67"; NeutronString "Q"]
      fresh_world
    = @graphs_bar Reference.lib
        [NeutronString "10:45,99:67"; NeutronString "Q"] fresh_world.
Proof.
  assert (H1 : str_find ":" "1:45,2:67" ≠ None) by discriminate.
  assert (H2 : str_find ":" "10:45,99:67" ≠ None) by discriminate.
  assert (E : map Point.y (@parsePoints Reference.lib "1:45,2:67")
              = map Point.y (@parsePoints Reference.lib "10:45,99:67"))
    by (vm_compute; reflexivity).
  destruct bar_ignores_x as (_ & _ & Hpairs & _).
  exact (conj H1 (conj H2 (conj E
    (Hpairs Reference.lib "1:45,2:67" "10:45,99:67" [NeutronString "Q"]
       fresh_world H1 H2 E)))).
Defined.

(** ** The pie *)

Section PieFacts.
Context `{StdLib}.

Lemma pie_body_spec (values : list double) (total : double) (i : nat)
  (svg : string) (start : double) :
  pie_body values total pie_colors 400 320 180 i (svg, start)
  = (svg +:+ render_slice
       {| slice_start := start;
          slice_sweep := (values !!! i / total) * 360;
          slice_large_arc :=
            if dgt ((values !!! i / total) * 360) 180 then 1%Z else 0%Z;
          slice_color := pie_colors !!! (i mod length pie_colors)%nat;
          slice_percent := cast_int ((values !!! i / total) * 100) |},
     start + (values !!! i / total) * 360).
Proof.
  unfold pie_body, render_slice, render_path, render_percent.
  cbn [slice_start slice_sweep slice_large_arc slice_color slice_percent].
  f_equal. rewrite !append_assoc. reflexivity.
Qed.

Lemma pie_loop_fold (total : double) (l1 l2 : list double) (svg : string)
  (start : double) :
  fold_left
    (fun st k => pie_body (l1 ++ l2) total pie_colors 400 320 180 k st)
    (seq (length l1) (length l2)) (svg, start)
  = (svg +:+ glue (map render_slice (slices_from total (length l1) start l2)),
     end_angle total start l2).
Proof.
  revert l1 svg start. induction l2 as [|v l2 IH]; intros l1 svg start.
  - simpl. now rewrite append_empty_r.
  - cbn [length seq fold_left]. rewrite pie_body_spec.
    rewrite list_lookup_total_middle by reflexivity.
    replace (l1 ++ v :: l2) with ((l1 ++ [v]) ++ l2)
      by now rewrite <- app_assoc.
    replace (S (length l1)) with (length (l1 ++ [v]))
      by (rewrite length_app; simpl; lia).
    rewrite IH. rewrite length_app. cbn [length slices_from map end_angle
      fold_left]. rewrite glue_cons, append_assoc. reflexivity.
Qed.

Lemma pie_loop_spec (values : list double) (total : double) (svg : string) :
  pie_loop values total svg
  = (svg +:+ glue (map render_slice (slices values total)),
     end_angle total (-90) values).
Proof.
  unfold pie_loop. rewrite for_size_fold by lia. rewrite Nat.sub_0_r.
  exact (pie_loop_fold total [] values svg (-90)).
Qed.



End PieFacts.





Section PieNative.
Context `{StdLib}.


End PieNative.








(** * Further properties of the code *)


(** ** Parsing composes over the comma *)

Lemma split_on_head (d : ascii) (s : string) :
  ∃ seg segs, split_on d s = seg :: segs.
Proof.
  induction s as [|c s (seg & segs & E)]; simpl; [now eexists _, _|].
  destruct (Ascii.eqb c d); [now eexists _, _|].
  rewrite E. now eexists _, _.
Qed.

Lemma split_on_join (d : ascii) (s1 s2 : string) :
  split_on d (s1 +:+ String d s2) = split_on d s1 ++ split_on d s2.
Proof.
  induction s1 as [|c s1 IH].
  - simpl. now rewrite Ascii.eqb_refl.
  - rewrite append_cons. simpl. destruct (Ascii.eqb c d).
    + now rewrite IH.
    + rewrite IH. destruct (split_on_head d s1) as (seg & segs & ->).
      reflexivity.
Qed.

Lemma parse_join `{StdLib} (s1 s2 : string) :
  parseCSV (s1 +:+ "," +:+ s2) = parseCSV s1 ++ parseCSV s2
  ∧ parsePoints (s1 +:+ "," +:+ s2) = parsePoints s1 ++ parsePoints s2.
Proof.
  rewrite !parseCSV_spec, !parsePoints_spec.
  change ("," +:+ s2) with (String "," s2).
  rewrite split_on_join. now rewrite !omap_app.
Qed.

(** X1.  Both parsers distribute over joining two inputs with a
    comma: the values of [s1,s2] are the values of [s1] followed by the
    values of [s2]. *)
Theorem parsers_distribute_over_comma :
  ∀ (L : StdLib) (s1 s2 : string),
    parseCSV (s1 +:+ "," +:+ s2) = parseCSV s1 ++ parseCSV s2
    ∧ parsePoints (s1 +:+ "," +:+ s2) = parsePoints s1 ++ parsePoints s2.
Proof. intros L s1 s2. apply parse_join. Qed.

(** X2.  An empty input holds no value, and a trailing comma, a
    leading comma or a doubled comma adds none. *)
Theorem parsers_ignore_empty_segments :
  ∀ (L : StdLib) (s s' : string),
    (parseCSV "" = [] ∧ parsePoints "" = [])
    ∧ (parseCSV (s +:+ ",") = parseCSV s
       ∧ parsePoints (s +:+ ",") = parsePoints s)
    ∧ (parseCSV ("," +:+ s) = parseCSV s
       ∧ parsePoints ("," +:+ s) = parsePoints s)
    ∧ (parseCSV (s +:+ ",," +:+ s') = parseCSV (s +:+ "," +:+ s')
       ∧ parsePoints (s +:+ ",," +:+ s') = parsePoints (s +:+ "," +:+ s')).
Proof.
  intros L s s'.
  assert (Ev : parseCSV "" = []).
  { rewrite parseCSV_spec. simpl. now rewrite stod_empty. }
  assert (Ep : parsePoints "" = []) by reflexivity.
  pose proof (@parse_join L) as D.
  split_and!; try assumption.
  - change (s +:+ ",") with (s +:+ "," +:+ ""). rewrite (proj1 (D _ _)), Ev.
    apply app_nil_r.
  - change (s +:+ ",") with (s +:+ "," +:+ ""). rewrite (proj2 (D _ _)), Ep.
    apply app_nil_r.
  - change ("," +:+ s) with ("" +:+ "," +:+ s). now rewrite (proj1 (D _ _)), Ev.
  - change ("," +:+ s) with ("" +:+ "," +:+ s). now rewrite (proj2 (D _ _)), Ep.
  - change (s +:+ ",," +:+ s') with (s +:+ "," +:+ ("" +:+ "," +:+ s')).
    now rewrite !(proj1 (D _ _)), Ev.
  - change (s +:+ ",," +:+ s') with (s +:+ "," +:+ ("" +:+ "," +:+ s')).
    now rewrite !(proj2 (D _ _)), Ep.
Qed.

(** ** The natives and the machine *)

Lemma sink_opened (filename content : string) (w : World) :
  can_open w filename = true →
  sink filename content w
  = (neutron_new_boolean true,
     mkWorld (<[filename := content]> (files w)) (can_open w)
       (system_status w) (launched w ++ ["xdg-open " +:+ filename])).
Proof. intros Ho. unfold sink, saveToFile. now rewrite Ho. Qed.

Lemma sink_refused (filename content : string) (w : World) :
  can_open w filename = false →
  sink filename content w = (neutron_new_boolean false, w).
Proof. intros Ho. unfold sink, saveToFile. now rewrite Ho. Qed.

Lemma chart_config_args (data : NeutronValue) (rest : list NeutronValue) :
  (if (2 <=? length (data :: rest))%nat
      && neutron_is_string ((data :: rest) !!! 1%nat)
   then GraphConfig.set_title
          (neutron_get_string ((data :: rest) !!! 1%nat)) GraphConfig.default
   else GraphConfig.default)
  = chart_config rest.
Proof. destruct rest as [|[t| |] rest']; reflexivity. Qed.

Section NativeSink.
Context `{StdLib}.

Lemma graphs_line_sink (data : string) (rest : list NeutronValue) (w : World) :
  parsePoints data ≠ [] →
  graphs_line (NeutronString data :: rest) w
  = sink "graph_line.svg"
      (svg (lineChart (parsePoints data) (new (chart_config rest)))) w.
Proof.
  intros Hne. unfold graphs_line. rewrite chart_config_args.
  cbn [length Nat.ltb Nat.leb orb negb neutron_is_string neutron_get_string
       lookup_total list_lookup_total].
  destruct (parsePoints data) as [|p points]; [congruence|]. reflexivity.
Qed.

Lemma graphs_scatter_sink (data : string) (rest : list NeutronValue)
  (w : World) :
  parsePoints data ≠ [] →
  graphs_scatter (NeutronString data :: rest) w
  = sink "graph_scatter.svg"
      (svg (scatterPlot (parsePoints data) (new (chart_config rest)))) w.
Proof.
  intros Hne. unfold graphs_scatter. rewrite chart_config_args.
  cbn [length Nat.ltb Nat.leb orb negb neutron_is_string neutron_get_string
       lookup_total list_lookup_total].
  destruct (parsePoints data) as [|p points]; [congruence|]. reflexivity.
Qed.

Lemma graphs_bar_sink (data : string) (rest : list NeutronValue) (w : World) :
  bar_points data ≠ [] →
  graphs_bar (NeutronString data :: rest) w
  = sink "graph_bar.svg"
      (svg (barChart (bar_points data) (new (chart_config rest)))) w.
Proof.
  intros Hne. unfold graphs_bar. rewrite chart_config_args.
  cbn [length Nat.ltb Nat.leb orb negb neutron_is_string neutron_get_string
       lookup_total list_lookup_total].
  destruct (bar_points data) as [|p points]; [congruence|]. reflexivity.
Qed.

Lemma graphs_pie_sink (data : string) (rest : list NeutronValue) (w : World) :
  parseCSV data ≠ [] →
  ¬ pie_total (parseCSV data) == 0 →
  graphs_pie (NeutronString data :: rest) w
  = sink "graph_pie.svg"
      (pie_chart (pie_title rest) (parseCSV data) (pie_total (parseCSV data)))
      w.
Proof.
  intros Hne Hz. unfold graphs_pie.
  assert (Et : (if (2 <=? length (NeutronString data :: rest))%nat
                   && neutron_is_string ((NeutronString data :: rest) !!! 1%nat)
                then neutron_get_string ((NeutronString data :: rest) !!! 1%nat)
                else "Pie Chart") = pie_title rest).
  { destruct rest as [|[t| |] rest']; reflexivity. }
  rewrite Et. clear Et.
  cbn [length Nat.ltb Nat.leb orb negb neutron_is_string neutron_get_string
       lookup_total list_lookup_total].
  destruct (parseCSV data) as [|v values] eqn:Ev; [congruence|].
  cbn [empty].
  destruct (deq (pie_total (v :: values)) 0) eqn:Ed.
  { apply Qeq_bool_iff in Ed. contradiction. }
  rewrite pie_loop_spec. unfold sink, pie_chart, pie_frame.
  rewrite !append_assoc. reflexivity.
Qed.

(** Every call of a native either fails at once, leaving the machine
    alone, or ends in the sink of its own file. *)
Lemma graphs_line_cases (args : list NeutronValue) (w : World) :
  graphs_line args w = (neutron_new_boolean false, w)
  ∨ ∃ doc, graphs_line args w = sink "graph_line.svg" doc w.
Proof.
  destruct args as [|[data| |] rest]; try (left; reflexivity).
  destruct (parsePoints data) as [|p points] eqn:E.
  - left. now apply graphs_line_empty.
  - right. eexists. apply graphs_line_sink. now rewrite E.
Qed.

Lemma graphs_scatter_cases (args : list NeutronValue) (w : World) :
  graphs_scatter args w = (neutron_new_boolean false, w)
  ∨ ∃ doc, graphs_scatter args w = sink "graph_scatter.svg" doc w.
Proof.
  destruct args as [|[data| |] rest]; try (left; reflexivity).
  destruct (parsePoints data) as [|p points] eqn:E.
  - left. now apply graphs_scatter_empty.
  - right. eexists. apply graphs_scatter_sink. now rewrite E.
Qed.

Lemma graphs_bar_cases (args : list NeutronValue) (w : World) :
  graphs_bar args w = (neutron_new_boolean false, w)
  ∨ ∃ doc, graphs_bar args w = sink "graph_bar.svg" doc w.
Proof.
  destruct args as [|[data| |] rest]; try (left; reflexivity).
  destruct (bar_points data) as [|p points] eqn:E.
  - left. now apply graphs_bar_empty.
  - right. eexists. apply graphs_bar_sink. now rewrite E.
Qed.

Lemma graphs_pie_cases (args : list NeutronValue) (w : World) :
  graphs_pie args w = (neutron_new_boolean false, w)
  ∨ ∃ doc, graphs_pie args w = sink "graph_pie.svg" doc w.
Proof.
  destruct args as [|[data| |] rest]; try (left; reflexivity).
  destruct (parseCSV data) as [|v values] eqn:E.
  - left. now apply graphs_pie_empty.
  - destruct (Qeq_dec (pie_total (parseCSV data)) 0) as [Hz|Hz].
    + left. now apply graphs_pie_zero.
    + right. eexists. apply graphs_pie_sink; [now rewrite E | exact Hz].
Qed.

End NativeSink.

Lemma sink_other_files (filename content other : string) (w : World) :
  other ≠ filename →
  files (snd (sink filename content w)) !! other = files w !! other.
Proof.
  intros Hne. destruct (can_open w filename) eqn:Ho.
  - rewrite sink_opened by exact Ho. simpl. now rewrite lookup_insert_ne.
  - now rewrite sink_refused by exact Ho.
Qed.

Lemma sink_oracles (filename content : string) (w : World) :
  can_open (snd (sink filename content w)) = can_open w
  ∧ system_status (snd (sink filename content w)) = system_status w.
Proof.
  destruct (can_open w filename) eqn:Ho.
  - rewrite sink_opened by exact Ho. now split.
  - rewrite sink_refused by exact Ho. now split.
Qed.

(** X3.  Called without argument, or with a first argument that is not
    a string, each native returns false and leaves the machine as it
    was. *)
Theorem natives_reject_bad_arguments :
  ∀ (L : StdLib) (args : list NeutronValue) (w : World),
    (args = [] ∨ ∃ v rest, args = v :: rest ∧ neutron_is_string v = false) →
    graphs_line args w = (neutron_new_boolean false, w)
    ∧ graphs_bar args w = (neutron_new_boolean false, w)
    ∧ graphs_scatter args w = (neutron_new_boolean false, w)
    ∧ graphs_pie args w = (neutron_new_boolean false, w).
Proof.
  intros L args w [-> | (v & rest & -> & Hv)].
  - now split_and!.
  - unfold graphs_line, graphs_bar, graphs_scatter, graphs_pie.
    cbn [length Nat.ltb Nat.leb orb lookup_total list_lookup_total].
    rewrite Hv. now split_and!.
Qed.

Lemma natives_reject_bad_arguments_witness :
  (∃ v rest, [NeutronBoolean true; NeutronString "1,2"] = v :: rest
             ∧ neutron_is_string v = false)
  ∧ @graphs_pie Reference.lib [NeutronBoolean true; NeutronString "1,2"]
      fresh_world
    = (neutron_new_boolean false, fresh_world).
Proof.
  assert (Hbad : ∃ v rest, [NeutronBoolean true; NeutronString "1,2"]
                           = v :: rest ∧ neutron_is_string v = false)
    by (eexists _, _; split; reflexivity).
  destruct (natives_reject_bad_arguments Reference.lib
              [NeutronBoolean true; NeutronString "1,2"] fresh_world
              (or_intror Hbad)) as (_ & _ & _ & Hpie).
  exact (conj Hbad Hpie).
Defined.

(** X4.  [saveToFile] either refuses, changing nothing, or stores the
    content under the name: the name then holds exactly that content,
    every other file is as before, and a second save under the same
    name replaces the first. *)
Theorem saveToFile_stores_or_refuses :
  ∀ (filename content : string) (w : World),
    (can_open w filename = false →
     saveToFile filename content w = (false, w))
    ∧ (can_open w filename = true →
       fst (saveToFile filename content w) = true
       ∧ files (snd (saveToFile filename content w)) !! filename
         = Some content
       ∧ (∀ other, other ≠ filename →
            files (snd (saveToFile filename content w)) !! other
            = files w !! other)
       ∧ launched (snd (saveToFile filename content w)) = launched w
       ∧ ∀ content',
           files (snd (saveToFile filename content'
                         (snd (saveToFile filename content w))))
           = files (snd (saveToFile filename content' w))).
Proof.
  intros filename content w. unfold saveToFile. split; intros Ho.
  - now rewrite Ho.
  - rewrite Ho. simpl. split_and!; try reflexivity.
    + apply lookup_insert_eq.
    + intros other Hne. now apply lookup_insert_ne.
    + intros content'. rewrite Ho. simpl. apply insert_insert_eq.
Qed.

Lemma saveToFile_stores_or_refuses_witness :
  can_open fresh_world "graph_bar.svg" = true
  ∧ files (snd (saveToFile "graph_bar.svg" "<svg/>" fresh_world))
      !! "graph_bar.svg" = Some "<svg/>".
Proof.
  assert (Ho : can_open fresh_world "graph_bar.svg" = true) by reflexivity.
  destruct (saveToFile_stores_or_refuses "graph_bar.svg" "<svg/>"
              fresh_world) as (_ & Hok).
  exact (conj Ho (proj1 (proj2 (Hok Ho)))).
Defined.

(** X5.  When the output file cannot be opened for writing, a native
    returns false whatever its arguments, starts no viewer and leaves
    the machine as it was. *)
Theorem natives_fail_when_file_refused :
  ∀ (L : StdLib) (args : list NeutronValue) (w : World),
    (can_open w "graph_line.svg" = false →
     graphs_line args w = (neutron_new_boolean false, w))
    ∧ (can_open w "graph_bar.svg" = false →
       graphs_bar args w = (neutron_new_boolean false, w))
    ∧ (can_open w "graph_scatter.svg" = false →
       graphs_scatter args w = (neutron_new_boolean false, w))
    ∧ (can_open w "graph_pie.svg" = false →
       graphs_pie args w = (neutron_new_boolean false, w)).
Proof.
  intros L args w. split_and!; intros Ho.
  - destruct (graphs_line_cases args w) as [E | [doc E]]; rewrite E;
      [reflexivity | now apply sink_refused].
  - destruct (graphs_bar_cases args w) as [E | [doc E]]; rewrite E;
      [reflexivity | now apply sink_refused].
  - destruct (graphs_scatter_cases args w) as [E | [doc E]]; rewrite E;
      [reflexivity | now apply sink_refused].
  - destruct (graphs_pie_cases args w) as [E | [doc E]]; rewrite E;
      [reflexivity | now apply sink_refused].
Qed.

(** A directory in which nothing can be created. *)
Lemma natives_fail_when_file_refused_witness :
  can_open (mkWorld ∅ (fun _ => false) (fun _ => 0%Z) []) "graph_line.svg"
  = false
  ∧ @graphs_line Reference.lib [NeutronString "0:0,1:1,2:4"]
      (mkWorld ∅ (fun _ => false) (fun _ => 0%Z) [])
    = (neutron_new_boolean false,
       mkWorld ∅ (fun _ => false) (fun _ => 0%Z) []).
Proof.
  assert (Ho : can_open (mkWorld ∅ (fun _ => false) (fun _ => 0%Z) [])
                 "graph_line.svg" = false) by reflexivity.
  destruct (natives_fail_when_file_refused Reference.lib
              [NeutronString "0:0,1:1,2:4"]
              (mkWorld ∅ (fun _ => false) (fun _ => 0%Z) []))
    as (Hline & _).
  exact (conj Ho (Hline Ho)).
Defined.



(** X7.  A native never creates or changes a file other than its own,
    whatever it is called with; the four file names differ, so no chart
    overwrites the chart of another type. *)
Theorem natives_touch_only_their_file :
  ∀ (L : StdLib) (args : list NeutronValue) (w : World) (other : string),
    (other ≠ "graph_line.svg" →
     files (snd (graphs_line args w)) !! other = files w !! other)
    ∧ (other ≠ "graph_bar.svg" →
       files (snd (graphs_bar args w)) !! other = files w !! other)
    ∧ (other ≠ "graph_scatter.svg" →
       files (snd (graphs_scatter args w)) !! other = files w !! other)
    ∧ (other ≠ "graph_pie.svg" →
       files (snd (graphs_pie args w)) !! other = files w !! other).
Proof.
  intros L args w other. split_and!; intros Hne.
  - destruct (graphs_line_cases args w) as [E | [doc E]]; rewrite E;
      [reflexivity | now apply sink_other_files].
  - destruct (graphs_bar_cases args w) as [E | [doc E]]; rewrite E;
      [reflexivity | now apply sink_other_files].
  - destruct (graphs_scatter_cases args w) as [E | [doc E]]; rewrite E;
      [reflexivity | now apply sink_other_files].
  - destruct (graphs_pie_cases args w) as [E | [doc E]]; rewrite E;
      [reflexivity | now apply sink_other_files].
Qed.

Lemma natives_touch_only_their_file_witness :
  "graph_pie.svg" ≠ "graph_bar.svg"
  ∧ files (snd (@graphs_bar Reference.lib [NeutronString "10,20,30"]
                  fresh_world)) !! "graph_pie.svg"
    = files fresh_world !! "graph_pie.svg".
Proof.
  assert (Hne : "graph_pie.svg" ≠ "graph_bar.svg") by discriminate.
  destruct (natives_touch_only_their_file Reference.lib
              [NeutronString "10,20,30"] fresh_world "graph_pie.svg")
    as (_ & Hbar & _).
  exact (conj Hne (Hbar Hne)).
Defined.

(** X8.  Arguments after the second are ignored, and so is a second
    argument that is not a string: the chart then gets its default
    title. *)
Theorem natives_ignore_other_arguments :
  ∀ (L : StdLib) (a0 a1 : NeutronValue) (rest : list NeutronValue)
    (w : World),
    (graphs_line (a0 :: a1 :: rest) w = graphs_line [a0; a1] w
     ∧ graphs_bar (a0 :: a1 :: rest) w = graphs_bar [a0; a1] w
     ∧ graphs_scatter (a0 :: a1 :: rest) w = graphs_scatter [a0; a1] w
     ∧ graphs_pie (a0 :: a1 :: rest) w = graphs_pie [a0; a1] w)
    ∧ (neutron_is_string a1 = false →
       graphs_line (a0 :: a1 :: rest) w = graphs_line [a0] w
       ∧ graphs_bar (a0 :: a1 :: rest) w = graphs_bar [a0] w
       ∧ graphs_scatter (a0 :: a1 :: rest) w = graphs_scatter [a0] w
       ∧ graphs_pie (a0 :: a1 :: rest) w = graphs_pie [a0] w).
Proof.
  intros L a0 a1 rest w. split.
  - now split_and!.
  - intros Hs. unfold graphs_line, graphs_bar, graphs_scatter, graphs_pie.
    cbn [length Nat.ltb Nat.leb orb andb lookup_total list_lookup_total].
    rewrite Hs. now split_and!.
Qed.

Lemma natives_ignore_other_arguments_witness :
  neutron_is_string (NeutronBoolean true) = false
  ∧ @graphs_pie Reference.lib
      [NeutronString "50,50"; NeutronBoolean true; NeutronNil] fresh_world
    = @graphs_pie Reference.lib [NeutronString "50,50"] fresh_world.
Proof.
  assert (Hs : neutron_is_string (NeutronBoolean true) = false)
    by reflexivity.
  destruct (natives_ignore_other_arguments Reference.lib
              (NeutronString "50,50") (NeutronBoolean true) [NeutronNil]
              fresh_world) as (_ & Hdrop).
  exact (conj Hs (proj2 (proj2 (proj2 (Hdrop Hs))))).
Defined.

(** ** Line charts and scatter plots *)

Lemma config_append (s : string) (g : SVGGraph.t) :
  config (append s g) = config g.
Proof. reflexivity. Qed.

Lemma svg_append (s : string) (g : SVGGraph.t) :
  svg (append s g) = svg g +:+ s.
Proof. reflexivity. Qed.

Lemma scale_same_box (g g' : SVGGraph.t) (v : double) :
  same_box g g' → scaleX g' v = scaleX g v ∧ scaleY g' v = scaleY g v.
Proof.
  intros (Ec & Em & EM & Emy & EMy). unfold scaleX, scaleY.
  now rewrite Ec, Em, EM, Emy, EMy.
Qed.

Section Marks.
Context `{StdLib}.

Lemma vertex_same_box (g g' : SVGGraph.t) (p : Point.t) :
  same_box g g' → vertex g' p = vertex g p.
Proof.
  intros Hb. unfold vertex.
  now rewrite (proj1 (scale_same_box g g' _ Hb)),
              (proj2 (scale_same_box g g' _ Hb)).
Qed.

Lemma marker_same_box (g g' : SVGGraph.t) (p : Point.t) :
  same_box g g' → marker g' p = marker g p.
Proof.
  intros Hb. unfold marker.
  rewrite (proj1 (scale_same_box g g' _ Hb)),
          (proj2 (scale_same_box g g' _ Hb)).
  destruct Hb as (-> & _). reflexivity.
Qed.

Lemma dot_same_box (g g' : SVGGraph.t) (p : Point.t) :
  same_box g g' → dot g' p = dot g p.
Proof.
  intros Hb. unfold dot.
  rewrite (proj1 (scale_same_box g g' _ Hb)),
          (proj2 (scale_same_box g g' _ Hb)).
  destruct Hb as (-> & _). reflexivity.
Qed.

(** A loop that appends, for each point, a mark that depends on the
    graph through its box only, appends the marks of the box it
    started with. *)
Lemma fold_marks (step : SVGGraph.t → Point.t → SVGGraph.t)
  (piece : SVGGraph.t → Point.t → string) (l : list Point.t)
  (g : SVGGraph.t) :
  (∀ g p, step g p = append (piece g p) g) →
  (∀ g g' p, same_box g g' → piece g' p = piece g p) →
  fold_left step l g = append (glue (map (piece g) l)) g.
Proof.
  intros Hstep Hbox. revert g.
  induction l as [|p l IH]; intros g; cbn [fold_left map].
  - apply eq_sym, append_nothing.
  - rewrite Hstep, IH, append_append, glue_cons. do 3 f_equal.
    apply map_ext. intros q. apply Hbox. apply same_box_append.
Qed.

Lemma lineChart_resolved (p0 : Point.t) (rest : list Point.t)
  (g : SVGGraph.t) :
  ∃ gS : SVGGraph.t,
    same_box gS (lineChart (p0 :: rest) g)
    ∧ config gS = config g
    ∧ svg gS = frame (config g)
    ∧ lineChart (p0 :: rest) g
      = append "</svg>"
          (append (glue (map (marker gS) (p0 :: rest)))
             (append (dq +:+ " fill=" +:+ dq +:+ "none" +:+ dq +:+ " stroke="
                      +:+ dq +:+ GraphConfig.color (config g) +:+ dq
                      +:+ " stroke-width=" +:+ dq +:+ "2" +:+ dq +:+ "/>"
                      +:+ nl)
                (append (glue (map (vertex gS) (p0 :: rest)))
                   (append ("<polyline points=" +:+ dq) gS)))).
Proof.
  unfold lineChart. cbv zeta.
  set (points := p0 :: rest) in *.
  match goal with |- context [drawLabels (drawAxes (drawGrid (init ?a)))] =>
    set (gB := a) in * end.
  set (gS := drawLabels (drawAxes (drawGrid (init gB)))) in *.
  exists gS.
  assert (HS : same_box gB gS) by apply same_box_skeleton.
  assert (EcB : config gB = config g).
  { unfold gB.
    match goal with |- context [find_bounds points ?seed] =>
      exact (proj1 (find_bounds_encloses points seed)) end. }
  assert (Ec : config gS = config g)
    by (destruct HS as (-> & _); exact EcB).
  assert (Ef : svg gS = frame (config g))
    by (unfold gS; rewrite skeleton_svg; now rewrite EcB).
  repeat match goal with
         | |- context [fold_left ?step ?l ?g0] =>
             first
               [ rewrite (fold_marks step vertex l g0)
                   by (first [reflexivity | apply vertex_same_box])
               | rewrite (fold_marks step marker l g0)
                   by (first [reflexivity | apply marker_same_box]) ]
         end.
  rewrite !config_append, Ec.
  assert (Ev : map (vertex (append ("<polyline points=" +:+ dq) gS)) points
               = map (vertex gS) points).
  { apply map_ext. intros q. apply vertex_same_box, same_box_append. }
  rewrite Ev.
  match goal with |- context [map (marker ?a) points] =>
    assert (Em : map (marker a) points = map (marker gS) points)
      by (apply map_ext; intros q; apply marker_same_box;
          box_chain draw_step);
    rewrite Em
  end.
  split_and!; [| reflexivity | exact Ef | reflexivity].
  box_chain draw_step.
Qed.


Lemma scatterPlot_resolved (p0 : Point.t) (rest : list Point.t)
  (g : SVGGraph.t) :
  ∃ gS : SVGGraph.t,
    same_box gS (scatterPlot (p0 :: rest) g)
    ∧ config gS = config g
    ∧ svg gS = frame (config g)
    ∧ scatterPlot (p0 :: rest) g
      = append "</svg>" (append (glue (map (dot gS) (p0 :: rest))) gS).
Proof.
  unfold scatterPlot. cbv zeta.
  set (points := p0 :: rest) in *.
  match goal with |- context [drawLabels (drawAxes (drawGrid (init ?a)))] =>
    set (gB := a) in * end.
  set (gS := drawLabels (drawAxes (drawGrid (init gB)))) in *.
  exists gS.
  assert (HS : same_box gB gS) by apply same_box_skeleton.
  assert (EcB : config gB = config g).
  { unfold gB.
    match goal with |- context [find_bounds points ?seed] =>
      exact (proj1 (find_bounds_encloses points seed)) end. }
  assert (Ec : config gS = config g)
    by (destruct HS as (-> & _); exact EcB).
  assert (Ef : svg gS = frame (config g))
    by (unfold gS; rewrite skeleton_svg; now rewrite EcB).
  match goal with
  | |- context [fold_left ?step ?l ?g0] =>
      rewrite (fold_marks step dot l g0)
        by (first [reflexivity | apply dot_same_box])
  end.
  split_and!; [| exact Ec | exact Ef | reflexivity].
  box_chain draw_step.
Qed.

End Marks.

(** X9.  The document of a line chart of a non-empty point list is the
    frame, one polyline with a vertex per point, and one marker of
    radius 4 per point, all in input order (the points are not
    sorted), then the closing tag. *)
Theorem lineChart_polyline_and_markers :
  ∀ (L : StdLib) (cfg : GraphConfig.t) (points : list Point.t),
    points ≠ [] →
    svg (lineChart points (new cfg))
    = frame cfg +:+ "<polyline points=" +:+ dq
      +:+ glue (map (vertex (lineChart points (new cfg))) points)
      +:+ dq +:+ " fill=" +:+ dq +:+ "none" +:+ dq +:+ " stroke=" +:+ dq
      +:+ GraphConfig.color cfg +:+ dq +:+ " stroke-width=" +:+ dq +:+ "2"
      +:+ dq +:+ "/>" +:+ nl
      +:+ glue (map (marker (lineChart points (new cfg))) points)
      +:+ "</svg>".
Proof.
  intros L cfg points Hne. destruct points as [|p0 rest]; [congruence|].
  destruct (lineChart_resolved p0 rest (new cfg)) as (gS & Hb & Ec & Ef & E).
  rewrite (map_ext _ _ (fun p => vertex_same_box gS _ p Hb)).
  rewrite (map_ext _ _ (fun p => marker_same_box gS _ p Hb)).
  rewrite E, !svg_append, Ef, !append_assoc. reflexivity.
Qed.

Lemma lineChart_polyline_and_markers_witness :
  [Point.mk 2 4; Point.mk 0 0; Point.mk 1 1] ≠ []
  ∧ starts_with (frame GraphConfig.default)
      (svg (@lineChart Reference.lib
              [Point.mk 2 4; Point.mk 0 0; Point.mk 1 1]
              (new GraphConfig.default))).
Proof.
  assert (Hne : [Point.mk 2 4; Point.mk 0 0; Point.mk 1 1] ≠ [])
    by discriminate.
  split; [exact Hne|]. eexists.
  exact (lineChart_polyline_and_markers Reference.lib GraphConfig.default
           [Point.mk 2 4; Point.mk 0 0; Point.mk 1 1] Hne).
Defined.

(** X10.  The document of a scatter plot of a non-empty point list is
    the frame and one dot of radius 5 per point, in input order, with
    no connecting line, then the closing tag. *)
Theorem scatterPlot_dots :
  ∀ (L : StdLib) (cfg : GraphConfig.t) (points : list Point.t),
    points ≠ [] →
    svg (scatterPlot points (new cfg))
    = frame cfg +:+ glue (map (dot (scatterPlot points (new cfg))) points)
      +:+ "</svg>".
Proof.
  intros L cfg points Hne. destruct points as [|p0 rest]; [congruence|].
  destruct (scatterPlot_resolved p0 rest (new cfg))
    as (gS & Hb & Ec & Ef & E).
  rewrite (map_ext _ _ (fun p => dot_same_box gS _ p Hb)).
  rewrite E, !svg_append, Ef, !append_assoc. reflexivity.
Qed.

Lemma scatterPlot_dots_witness :
  [Point.mk 1 2; Point.mk 2 4] ≠ []
  ∧ ends_with "</svg>"
      (svg (@scatterPlot Reference.lib [Point.mk 1 2; Point.mk 2 4]
              (new GraphConfig.default))).
Proof.
  assert (Hne : [Point.mk 1 2; Point.mk 2 4] ≠ []) by discriminate.
  split; [exact Hne|].
  exists (frame GraphConfig.default
          +:+ glue (map (@dot Reference.lib (@scatterPlot Reference.lib
                                [Point.mk 1 2; Point.mk 2 4]
                                (new GraphConfig.default)))
                      [Point.mk 1 2; Point.mk 2 4])).
  rewrite append_assoc.
  exact (scatterPlot_dots Reference.lib GraphConfig.default
           [Point.mk 1 2; Point.mk 2 4] Hne).
Defined.

(** ** Bounding boxes and the plot area *)

Lemma fold_std_min (vs : list double) (a : double) :
  let r := fold_left std_min vs a in
  (r = a ∨ r ∈ vs) ∧ r <= a ∧ Forall (fun v => r <= v) vs.
Proof.
  revert a. induction vs as [|v vs IH]; intros a; simpl.
  - split_and!; [now left | lra | constructor].
  - destruct (IH (std_min a v)) as (Hin & Hle & Hall).
    destruct (std_min_case a v) as [[E Hva]|[E Hav]]; rewrite E in *.
    + split_and!.
      * destruct Hin as [->|Hin]; [now left | right; now constructor].
      * exact Hle.
      * constructor; [lra | exact Hall].
    + split_and!.
      * right. destruct Hin as [->|Hin]; [constructor | now constructor].
      * lra.
      * constructor; [exact Hle | exact Hall].
Qed.

Lemma find_bounds_fields (points : list Point.t) (g : SVGGraph.t) :
  find_bounds points g
  = mk (svg g) (config g)
      (fold_left std_min (map Point.x points) (minX g))
      (fold_left std_max (map Point.x points) (maxX g))
      (fold_left std_min (map Point.y points) (minY g))
      (fold_left std_max (map Point.y points) (maxY g)).
Proof.
  revert g. induction points as [|p points IH]; intros g.
  - now destruct g.
  - cbn [find_bounds fold_left map]. unfold find_bounds in IH.
    rewrite IH. reflexivity.
Qed.

(** The sides of the box that [lineChart] and [scatterPlot] give to a
    non-empty point list. *)
Lemma padded_box (p0 : Point.t) (rest : list Point.t) (g : SVGGraph.t) :
  let gB :=
    pad_bounds
      (find_bounds (p0 :: rest)
         (set_minY (Point.y p0)
            (set_maxY (Point.y p0)
               (set_minX (Point.x p0) (set_maxX (Point.x p0) g))))) in
  ∃ xlo xhi ylo yhi,
    is_minimum xlo (map Point.x (p0 :: rest))
    ∧ is_maximum xhi (map Point.x (p0 :: rest))
    ∧ is_minimum ylo (map Point.y (p0 :: rest))
    ∧ is_maximum yhi (map Point.y (p0 :: rest))
    ∧ minX gB = xlo - (xhi - xlo) * 0.05
    ∧ maxX gB = xhi + (xhi - xlo) * 0.05
    ∧ minY gB = ylo - (yhi - ylo) * 0.05
    ∧ maxY gB = yhi + (yhi - ylo) * 0.05.
Proof.
  intros gB. unfold gB. rewrite find_bounds_fields.
  cbn [svg config minX maxX minY maxY set_minX set_maxX set_minY set_maxY].
  set (xs := map Point.x (p0 :: rest)). set (ys := map Point.y (p0 :: rest)).
  exists (fold_left std_min xs (Point.x p0)),
         (fold_left std_max xs (Point.x p0)),
         (fold_left std_min ys (Point.y p0)),
         (fold_left std_max ys (Point.y p0)).
  destruct (fold_std_min xs (Point.x p0)) as (Hxl & _ & Hxla).
  destruct (fold_std_max xs (Point.x p0)) as (Hxh & _ & Hxha).
  destruct (fold_std_min ys (Point.y p0)) as (Hyl & _ & Hyla).
  destruct (fold_std_max ys (Point.y p0)) as (Hyh & _ & Hyha).
  assert (Hx0 : Point.x p0 ∈ xs) by constructor.
  assert (Hy0 : Point.y p0 ∈ ys) by constructor.
  split_and!; try reflexivity; split; try assumption.
  - destruct Hxl as [->|?]; assumption.
  - destruct Hxh as [->|?]; assumption.
  - destruct Hyl as [->|?]; assumption.
  - destruct Hyh as [->|?]; assumption.
Qed.

Section Boxes.
Context `{StdLib}.

Lemma chart_is_padded_range (points : list Point.t) (g g' : SVGGraph.t)
  (p0 : Point.t) (rest : list Point.t) :
  points = p0 :: rest →
  same_box
    (pad_bounds
       (find_bounds (p0 :: rest)
          (set_minY (Point.y p0)
             (set_maxY (Point.y p0)
                (set_minX (Point.x p0) (set_maxX (Point.x p0) g)))))) g' →
  is_padded_range points g'.
Proof.
  intros -> Hb.
  destruct (padded_box p0 rest g)
    as (xlo & xhi & ylo & yhi & H1 & H2 & H3 & H4 & E1 & E2 & E3 & E4).
  exists xlo, xhi, ylo, yhi.
  destruct Hb as (_ & -> & -> & -> & ->). now split_and!.
Qed.

Lemma lineChart_padded_range (points : list Point.t) (g : SVGGraph.t) :
  points ≠ [] → is_padded_range points (lineChart points g).
Proof.
  intros Hne. destruct points as [|p0 rest] eqn:E; [congruence|].
  eapply chart_is_padded_range; [reflexivity | apply same_box_lineChart].
Qed.

Lemma scatterPlot_padded_range (points : list Point.t) (g : SVGGraph.t) :
  points ≠ [] → is_padded_range points (scatterPlot points g).
Proof.
  intros Hne. destruct points as [|p0 rest] eqn:E; [congruence|].
  eapply chart_is_padded_range; [reflexivity | apply same_box_scatterPlot].
Qed.

Lemma lineChart_config (points : list Point.t) (g : SVGGraph.t) :
  config (lineChart points g) = config g.
Proof.
  destruct points as [|p0 rest]; [reflexivity|].
  destruct (lineChart_resolved p0 rest g) as (gS & (Ec & _) & Eg & _).
  now rewrite Ec.
Qed.

Lemma scatterPlot_config (points : list Point.t) (g : SVGGraph.t) :
  config (scatterPlot points g) = config g.
Proof.
  destruct points as [|p0 rest]; [reflexivity|].
  destruct (scatterPlot_resolved p0 rest g) as (gS & (Ec & _) & Eg & _).
  now rewrite Ec.
Qed.

End Boxes.

(** X11.  The box of a line chart or scatter plot of a non-empty point
    list is the range of the x values and of the y values, widened on
    both ends by 5% of the range; the chart keeps the configuration it
    was given. *)
Theorem chart_box_is_padded_range :
  ∀ (L : StdLib) (cfg : GraphConfig.t) (points : list Point.t),
    points ≠ [] →
    (is_padded_range points (lineChart points (new cfg))
     ∧ config (lineChart points (new cfg)) = cfg)
    ∧ (is_padded_range points (scatterPlot points (new cfg))
       ∧ config (scatterPlot points (new cfg)) = cfg).
Proof.
  intros L cfg points Hne. split_and!.
  - now apply lineChart_padded_range.
  - apply lineChart_config.
  - now apply scatterPlot_padded_range.
  - apply scatterPlot_config.
Qed.

Lemma chart_box_is_padded_range_witness :
  [Point.mk 0 0; Point.mk 1 1; Point.mk 2 4] ≠ []
  ∧ is_padded_range [Point.mk 0 0; Point.mk 1 1; Point.mk 2 4]
      (@lineChart Reference.lib [Point.mk 0 0; Point.mk 1 1; Point.mk 2 4]
         (new GraphConfig.default)).
Proof.
  assert (Hne : [Point.mk 0 0; Point.mk 1 1; Point.mk 2 4] ≠ [])
    by discriminate.
  exact (conj Hne
    (proj1 (proj1 (chart_box_is_padded_range Reference.lib
                     GraphConfig.default
                     [Point.mk 0 0; Point.mk 1 1; Point.mk 2 4] Hne)))).
Defined.







(** ** The geometry of the bars *)

Lemma of_size_succ (i : nat) : of_size (S i) == of_size i + 1.
Proof.
  unfold of_size. rewrite Nat2Z.inj_succ. unfold Z.succ.
  now rewrite inject_Z_plus.
Qed.

Lemma of_size_nonneg (i : nat) : 0 <= of_size i.
Proof.
  unfold of_size. change 0 with (inject_Z 0). rewrite <- Zle_Qle. lia.
Qed.

Lemma of_size_le (i n : nat) : (i <= n)%nat → of_size i <= of_size n.
Proof. intros Hle. unfold of_size. rewrite <- Zle_Qle. lia. Qed.

Lemma of_size_pos (n : nat) : (0 < n)%nat → 0 < of_size n.
Proof.
  intros Hn. unfold of_size. change 0 with (inject_Z 0).
  rewrite <- Zlt_Qlt. lia.
Qed.

(** The slot of a bar is [innerWidth / count] wide; the bar sits in
    the middle of its slot and takes two thirds of it. *)
Lemma bar_in_slot `{StdLib} (cfg : GraphConfig.t) (n i : nat)
  (lo hi v : double) :
  (0 < n)%nat →
  let b := bar cfg n lo hi i v in
  let slot := innerWidth cfg / of_size n in
  bar_width b == slot * (2 # 3)
  ∧ bar_left b
    == inject_Z (GraphConfig.padding cfg) + of_size i * slot + slot * (1 # 6).
Proof.
  intros Hn b slot. subst b slot. unfold bar.
  cbn [bar_width bar_left]. rewrite !of_int_inner_width.
  pose proof (of_size_pos n Hn) as Hp. unfold of_int. split; field; lra.
Qed.

Section Bars.
Context `{StdLib}.

Lemma bars_nth (cfg : GraphConfig.t) (vs : list double) (i : nat) (b : Bar) :
  bars cfg vs !! i = Some b →
  (i < length vs)%nat
  ∧ ∃ v, vs !! i = Some v
         ∧ b = bar cfg (length vs) 0 (highest vs * 1.1) i v.
Proof.
  unfold bars. rewrite list_lookup_imap. intros Hb.
  destruct (vs !! i) as [v|] eqn:Ev; [|discriminate].
  injection Hb as <-. split; [now apply lookup_lt_Some in Ev|].
  now exists v.
Qed.

End Bars.

(** X14.  On a canvas wider than its padding the bars of a bar chart
    all have the same width, never overlap, and stay between the left
    and the right edge of the padded interior. *)
Theorem bars_do_not_overlap :
  ∀ (L : StdLib) (cfg : GraphConfig.t) (points : list Point.t) (i : nat)
    (b : Bar),
    let vs := map Point.y points in
    0 < innerWidth cfg →
    bars cfg vs !! i = Some b →
    svg (barChart points (new cfg))
    = frame cfg +:+ glue (map (render_bar cfg) (bars cfg vs)) +:+ "</svg>"
    ∧ bar_width b == innerWidth cfg / of_size (length vs) * (2 # 3)
    ∧ inject_Z (GraphConfig.padding cfg) < bar_left b
    ∧ bar_left b + bar_width b
      < inject_Z (GraphConfig.width cfg) - inject_Z (GraphConfig.padding cfg)
    ∧ ∀ b', bars cfg vs !! S i = Some b' →
            bar_left b + bar_width b < bar_left b'.
Proof.
  intros L cfg points i b vs Hw Hb.
  destruct (bars_nth cfg vs i b Hb) as (Hi & v & _ & ->).
  assert (Hn : (0 < length vs)%nat) by lia.
  assert (Hne : points ≠ []).
  { intros ->. subst vs. simpl in Hn. lia. }
  split; [rewrite (barChart_document cfg points Hne); reflexivity|].
  destruct (bar_in_slot cfg (length vs) i 0 (highest vs * 1.1) v Hn)
    as [Ew El].
  cbv zeta in Ew, El.
  pose proof (of_size_pos _ Hn) as Hp.
  assert (Hslot : 0 < innerWidth cfg / of_size (length vs)).
  { unfold Qdiv. apply Qmult_lt_0_compat; [exact Hw|].
    now apply Qinv_lt_0_compat. }
  assert (Hfull : of_size (length vs) * (innerWidth cfg / of_size (length vs))
                  == innerWidth cfg) by (field; lra).
  set (slot := innerWidth cfg / of_size (length vs)) in *.
  assert (Hi0 : 0 <= of_size i * slot)
    by (apply Qmult_le_0_compat; [apply of_size_nonneg | lra]).
  assert (Hi1 : of_size i * slot + slot <= innerWidth cfg).
  { rewrite <- Hfull.
    assert (E : of_size i * slot + slot == of_size (S i) * slot)
      by (rewrite of_size_succ; ring).
    rewrite E. apply Qmult_le_compat_r; [|lra]. now apply of_size_le. }
  rewrite Ew, El. unfold innerWidth in *. split_and!; try lra.
  intros b' Hb'.
  destruct (bars_nth cfg vs (S i) b' Hb') as (_ & v' & _ & ->).
  destruct (bar_in_slot cfg (length vs) (S i) 0 (highest vs * 1.1) v' Hn)
    as [_ El'].
  cbv zeta in El'. unfold innerWidth in El'. fold slot in El'.
  rewrite Ew, El, El', of_size_succ.
  assert (E : (of_size i + 1) * slot == of_size i * slot + slot) by ring.
  rewrite E. lra.
Qed.

Lemma bars_do_not_overlap_witness :
  0 < innerWidth GraphConfig.default
  ∧ @bars Reference.lib GraphConfig.default [10; 20; 30] !! 1%nat
    = Some (@bar Reference.lib GraphConfig.default 3 0
              (highest [10; 20; 30] * 1.1) 1 20)
  ∧ inject_Z (GraphConfig.padding GraphConfig.default)
    < bar_left (@bar Reference.lib GraphConfig.default 3 0
                  (highest [10; 20; 30] * 1.1) 1 20).
Proof.
  assert (Hw : 0 < innerWidth GraphConfig.default) by reflexivity.
  assert (Hb : @bars Reference.lib GraphConfig.default [10; 20; 30] !! 1%nat
               = Some (@bar Reference.lib GraphConfig.default 3 0
                         (highest [10; 20; 30] * 1.1) 1 20))
    by reflexivity.
  exact (conj Hw (conj Hb
    (proj1 (proj2 (proj2
       (bars_do_not_overlap Reference.lib GraphConfig.default
          [Point.mk 0 10; Point.mk 1 20; Point.mk 2 30] 1%nat _ Hw Hb)))))).
Defined.



(** ** The grid *)

Lemma idiv_tenths (extent : Z) : idiv (extent * 10) 10 = extent.
Proof. unfold idiv. now rewrite Z.quot_mul. Qed.

(** X16.  [drawGrid] draws nothing when the grid is switched off.
    Otherwise it appends one group holding eleven vertical and eleven
    horizontal lines; along each axis the first line lies on one edge
    of the padded interior and the last on the opposite edge, and on a
    canvas at least as large as its padding the lines come in
    increasing position. *)
Theorem drawGrid_spans_the_interior :
  ∀ (g : SVGGraph.t),
    let cfg := config g in
    let W := (GraphConfig.width cfg - 2 * GraphConfig.padding cfg)%Z in
    let E := (GraphConfig.height cfg - 2 * GraphConfig.padding cfg)%Z in
    (GraphConfig.showGrid cfg = false → drawGrid g = g)
    ∧ (GraphConfig.showGrid cfg = true →
       drawGrid g
       = append
           ("<g id=" +:+ dq +:+ "grid" +:+ dq +:+ " stroke=" +:+ dq
            +:+ "#e5e7eb" +:+ dq +:+ " stroke-width=" +:+ dq +:+ "1" +:+ dq
            +:+ ">" +:+ nl
            +:+ glue (map (vertical_line cfg)
                        (grid_positions (GraphConfig.padding cfg) W))
            +:+ glue (map (horizontal_line cfg)
                        (grid_positions (GraphConfig.padding cfg) E))
            +:+ "</g>" +:+ nl) g)
    ∧ (∀ origin extent,
         length (grid_positions origin extent) = 11%nat
         ∧ grid_positions origin extent !! 0%nat = Some origin
         ∧ grid_positions origin extent !! 10%nat
           = Some (origin + extent)%Z
         ∧ ((0 <= extent)%Z →
            ∀ i j a b, (i <= j)%nat →
              grid_positions origin extent !! i = Some a →
              grid_positions origin extent !! j = Some b →
              (a <= b)%Z))
    ∧ (grid_positions (GraphConfig.padding cfg) W !! 10%nat
       = Some (GraphConfig.width cfg - GraphConfig.padding cfg)%Z
       ∧ grid_positions (GraphConfig.padding cfg) E !! 10%nat
         = Some (GraphConfig.height cfg - GraphConfig.padding cfg)%Z).
Proof.
  intros g cfg W E.
  assert (Hlast : ∀ origin extent,
            grid_positions origin extent !! 10%nat
            = Some (origin + extent)%Z).
  { intros origin extent. unfold grid_positions.
    change (seqZ 0 11) with [0; 1; 2; 3; 4; 5; 6; 7; 8; 9; 10]%Z.
    cbn [map lookup list_lookup]. now rewrite idiv_tenths. }
  split_and!.
  - intros Hoff. unfold drawGrid. fold cfg. now rewrite Hoff.
  - intros Hon. unfold drawGrid. fold cfg. rewrite Hon. cbn [negb].
    rewrite !fold_append, !append_append. f_equal.
  - intros origin extent. split_and!.
    + reflexivity.
    + unfold grid_positions.
      change (seqZ 0 11) with [0; 1; 2; 3; 4; 5; 6; 7; 8; 9; 10]%Z.
      cbn [map lookup list_lookup]. unfold idiv.
      now rewrite Z.mul_0_r, Z.quot_0_l, Z.add_0_r by lia.
    + apply Hlast.
    + intros He i j a b Hij. unfold grid_positions.
      rewrite !list_lookup_fmap.
      destruct (seqZ 0 11 !! i) as [zi|] eqn:Ei; [|discriminate].
      destruct (seqZ 0 11 !! j) as [zj|] eqn:Ej; [|discriminate].
      apply lookup_seqZ in Ei as [-> Hi]. apply lookup_seqZ in Ej as [-> Hj].
      intros [= <-] [= <-]. unfold idiv.
      apply Zplus_le_compat_l.
      apply Z.quot_le_mono; [lia|]. apply Z.mul_le_mono_nonneg_l; lia.
  - rewrite Hlast. subst W. f_equal. lia.
  - rewrite Hlast. subst E. f_equal. lia.
Qed.

Lemma drawGrid_spans_the_interior_witness :
  (GraphConfig.showGrid
     (config (new (GraphConfig.mk 800 600 60 "" "" "" "" "" false true)))
   = false
   ∧ drawGrid (new (GraphConfig.mk 800 600 60 "" "" "" "" "" false true))
     = new (GraphConfig.mk 800 600 60 "" "" "" "" "" false true))
  ∧ ((0 <= 680)%Z
     ∧ grid_positions 60 680 !! 3%nat = Some 264%Z
     ∧ grid_positions 60 680 !! 7%nat = Some 536%Z
     ∧ (264 <= 536)%Z).
Proof.
  assert (Hoff : GraphConfig.showGrid
                   (config (new (GraphConfig.mk 800 600 60 "" "" "" "" ""
                                   false true))) = false) by reflexivity.
  assert (Hext : (0 <= 680)%Z) by lia.
  assert (H3 : grid_positions 60 680 !! 3%nat = Some 264%Z) by reflexivity.
  assert (H7 : grid_positions 60 680 !! 7%nat = Some 536%Z) by reflexivity.
  assert (H37 : (3 <= 7)%nat) by lia.
  destruct (drawGrid_spans_the_interior
              (new (GraphConfig.mk 800 600 60 "" "" "" "" "" false true)))
    as (Hsame & _ & Hpos & _).
  destruct (Hpos 60%Z 680%Z) as (_ & _ & _ & Hord).
  exact (conj (conj Hoff (Hsame Hoff))
           (conj Hext (conj H3 (conj H7
              (Hord Hext 3%nat 7%nat 264%Z 536%Z H37 H3 H7))))).
Defined.

(** ** The two input forms of the bar chart *)

Lemma index_loop (l1 l2 : list double) (acc : list Point.t) :
  fold_left
    (fun points k => points ++ [Point.mk (of_size k) ((l1 ++ l2) !!! k)])
    (seq (length l1) (length l2)) acc
  = acc ++ imap (fun i v => Point.mk (of_size (length l1 + i)) v) l2.
Proof.
  revert l1 acc. induction l2 as [|v l2 IH]; intros l1 acc.
  - simpl. now rewrite app_nil_r.
  - cbn [length seq fold_left].
    rewrite list_lookup_total_middle by reflexivity.
    replace (l1 ++ v :: l2) with ((l1 ++ [v]) ++ l2)
      by now rewrite <- app_assoc.
    replace (S (length l1)) with (length (l1 ++ [v]))
      by (rewrite length_app; simpl; lia).
    rewrite IH, imap_cons, Nat.add_0_r, <- app_assoc. do 2 f_equal.
    apply imap_ext. intros i w _. simpl. do 2 f_equal.
    rewrite length_app. simpl. lia.
Qed.

(** X17.  [graphs_bar] reads its data in the pair form as soon as it
    holds a colon anywhere, and as a flat value list otherwise; a flat
    value gets its zero-based position as x. *)
Theorem bar_points_by_form :
  ∀ (L : StdLib) (data : string),
    (str_find ":" data ≠ None → bar_points data = parsePoints data)
    ∧ (str_find ":" data = None →
       bar_points data
       = imap (fun i v => Point.mk (of_size i) v) (parseCSV data)
       ∧ map Point.y (bar_points data) = parseCSV data).
Proof.
  intros L data. split.
  - apply bar_points_pairs.
  - intros Hnone. unfold bar_points. rewrite Hnone.
    rewrite for_size_fold by lia. rewrite Nat.sub_0_r.
    pose proof (index_loop [] (parseCSV data) []) as E.
    cbn [app length] in E. rewrite E. cbn [app]. split; [reflexivity|].
    etrans; [apply fmap_imap|].
    etrans; [apply (imap_const id)|apply list_fmap_id].
Qed.

Lemma bar_points_by_form_witness :
  str_find ":" "10,20,30" = None
  ∧ @bar_points Reference.lib "10,20,30"
    = imap (fun i v => Point.mk (of_size i) v)
        (@parseCSV Reference.lib "10,20,30").
Proof.
  assert (Hnone : str_find ":" "10,20,30" = None) by reflexivity.
  exact (conj Hnone
    (proj1 (proj2 (bar_points_by_form Reference.lib "10,20,30") Hnone))).
Defined.

(** ** What a native reports *)

Lemma starts_with_append (prefix s tail : string) :
  starts_with prefix s → starts_with prefix (s +:+ tail).
Proof.
  intros [rest ->]. exists (rest +:+ tail). now rewrite append_assoc.
Qed.

Lemma svg_drawGrid (g : SVGGraph.t) :
  ∃ tail, svg (drawGrid g) = svg g +:+ tail.
Proof.
  unfold drawGrid. destruct (negb _).
  - exists EmptyString. now rewrite append_empty_r.
  - rewrite !fold_append, !append_append. eexists. apply svg_append.
Qed.

Lemma svg_drawAxes (g : SVGGraph.t) :
  ∃ tail, svg (drawAxes g) = svg g +:+ tail.
Proof.
  unfold drawAxes. cbv zeta. rewrite !append_append. eexists.
  apply svg_append.
Qed.

Lemma svg_drawLabels (g : SVGGraph.t) :
  ∃ tail, svg (drawLabels g) = svg g +:+ tail.
Proof.
  unfold drawLabels. cbv zeta. rewrite !append_append. eexists.
  apply svg_append.
Qed.

Lemma svg_init (g : SVGGraph.t) :
  ∃ tail,
    svg (init g)
    = (xml_declaration
       +:+ svg_root (GraphConfig.width (config g))
             (GraphConfig.height (config g))) +:+ tail.
Proof.
  unfold init. cbv zeta. rewrite !svg_append. eexists. reflexivity.
Qed.

(** The frame begins with the declaration and a root of the configured
    size. *)
Lemma frame_starts (cfg : GraphConfig.t) :
  starts_with
    (xml_declaration +:+ svg_root (GraphConfig.width cfg)
                           (GraphConfig.height cfg))
    (frame cfg).
Proof.
  unfold frame.
  destruct (svg_drawLabels (drawAxes (drawGrid (init (new cfg)))))
    as [t1 ->].
  destruct (svg_drawAxes (drawGrid (init (new cfg)))) as [t2 ->].
  destruct (svg_drawGrid (init (new cfg))) as [t3 ->].
  destruct (svg_init (new cfg)) as [t4 ->].
  do 4 apply starts_with_append. exists EmptyString.
  now rewrite append_empty_r.
Qed.

Section Documents.
Context `{StdLib}.

Lemma lineChart_is_document (cfg : GraphConfig.t) (points : list Point.t) :
  points ≠ [] →
  is_document (GraphConfig.width cfg) (GraphConfig.height cfg)
    (svg (lineChart points (new cfg))).
Proof.
  intros Hne. destruct points as [|p0 rest]; [congruence|].
  destruct (lineChart_resolved p0 rest (new cfg)) as (gS & _ & _ & Ef & E).
  rewrite E, !svg_append, Ef. change (config (new cfg)) with cfg. split.
  - do 5 apply starts_with_append. exact (frame_starts cfg).
  - eexists. reflexivity.
Qed.

Lemma scatterPlot_is_document (cfg : GraphConfig.t) (points : list Point.t) :
  points ≠ [] →
  is_document (GraphConfig.width cfg) (GraphConfig.height cfg)
    (svg (scatterPlot points (new cfg))).
Proof.
  intros Hne. destruct points as [|p0 rest]; [congruence|].
  destruct (scatterPlot_resolved p0 rest (new cfg)) as (gS & _ & _ & Ef & E).
  rewrite E, !svg_append, Ef. change (config (new cfg)) with cfg. split.
  - do 2 apply starts_with_append. exact (frame_starts cfg).
  - eexists. reflexivity.
Qed.

Lemma barChart_is_document (cfg : GraphConfig.t) (points : list Point.t) :
  points ≠ [] →
  is_document (GraphConfig.width cfg) (GraphConfig.height cfg)
    (svg (barChart points (new cfg))).
Proof.
  intros Hne. rewrite (barChart_document cfg points Hne). unfold bar_chart.
  split.
  - rewrite <- append_assoc. do 2 apply starts_with_append.
    exact (frame_starts cfg).
  - eexists. rewrite <- append_assoc. reflexivity.
Qed.

Lemma pie_chart_is_document (title : string) (values : list double)
  (total : double) :
  is_document 800 600 (pie_chart title values total).
Proof.
  unfold pie_chart. split.
  - rewrite <- append_assoc. do 2 apply starts_with_append.
    eexists. unfold pie_frame, xml_declaration, svg_root.
    rewrite !append_assoc. reflexivity.
  - eexists. rewrite <- append_assoc. reflexivity.
Qed.

Lemma chart_config_size (rest : list NeutronValue) :
  GraphConfig.width (chart_config rest) = 800%Z
  ∧ GraphConfig.height (chart_config rest) = 600%Z.
Proof. destruct rest as [|[t| |] rest']; now split. Qed.

Lemma sink_reports (name doc : string) (w : World) :
  is_document 800 600 doc → reports name w (sink name doc w).
Proof.
  intros Hdoc. destruct (can_open w name) eqn:Ho.
  - right. exists doc. split; [exact Hdoc|]. now apply sink_opened.
  - left. now apply sink_refused.
Qed.

End Documents.

(** X18.  Whatever its arguments and whatever the machine, a native
    does one of two things.  Either it returns false and has changed
    nothing: no file written, no viewer launched.  Or it returns true,
    its own file holds a document that begins with the XML declaration
    and an svg root of 800 by 600 and ends with the closing tag, and
    the viewer has been launched once on that file. *)
Theorem natives_report_what_they_did :
  ∀ (L : StdLib) (args : list NeutronValue) (w : World),
    reports "graph_line.svg" w (graphs_line args w)
    ∧ reports "graph_bar.svg" w (graphs_bar args w)
    ∧ reports "graph_scatter.svg" w (graphs_scatter args w)
    ∧ reports "graph_pie.svg" w (graphs_pie args w).
Proof.
  intros L args w.
  destruct args as [|[data| |] rest];
    try (split_and!; left; reflexivity).
  split_and!.
  - destruct (parsePoints data) as [|p points] eqn:E.
    + left. now apply graphs_line_empty.
    + rewrite graphs_line_sink by now rewrite E.
      apply sink_reports.
      destruct (chart_config_size rest) as [<- <-].
      apply lineChart_is_document. now rewrite E.
  - destruct (bar_points data) as [|p points] eqn:E.
    + left. now apply graphs_bar_empty.
    + rewrite graphs_bar_sink by now rewrite E.
      apply sink_reports.
      destruct (chart_config_size rest) as [<- <-].
      apply barChart_is_document. now rewrite E.
  - destruct (parsePoints data) as [|p points] eqn:E.
    + left. now apply graphs_scatter_empty.
    + rewrite graphs_scatter_sink by now rewrite E.
      apply sink_reports.
      destruct (chart_config_size rest) as [<- <-].
      apply scatterPlot_is_document. now rewrite E.
  - destruct (parseCSV data) as [|v values] eqn:E.
    + left. now apply graphs_pie_empty.
    + destruct (Qeq_dec (pie_total (parseCSV data)) 0) as [Hz|Hz].
      * left. now apply graphs_pie_zero.
      * rewrite graphs_pie_sink; [| now rewrite E | exact Hz].
        apply sink_reports. apply pie_chart_is_document.
Qed.

(** ** The slices of the pie: colours and percentages *)

Section PiePaint.
Context `{StdLib}.



End PiePaint.







